(** * CrystaLLM challenge analysis: [bin/analyze_challenge.py]

    A shallow embedding of the result-aggregation script and the proofs of
    its properties.  The script's own functions are transcribed one by one;
    what it calls from Python's standard library and from pymatgen is the
    interface [Host] below, so that every theorem holds for any behaviour
    of those callees.  Console output ([print]) is not modelled. *)

From Stdlib Require Import Ascii String QArith Lqa.
From stdpp Require Import gmap strings list sorting pretty.

Local Open Scope string_scope.

(** ** Exceptions and fallible results *)

(** The exception classes the script can meet.  [LibraryError] stands for
    any other subclass of [Exception] raised by a callee; [KeyboardInterrupt]
    is the one class here that is not a subclass of [Exception]. *)
Inductive exn : Type :=
  | StopIteration
  | IndexError
  | ValueError
  | TypeError
  | KeyError (key : string)
  | FileNotFoundError (path : string)
  | FileExistsError (path : string)
  | OSError (msg : string)
  | LibraryError (msg : string)
  | KeyboardInterrupt.

(** [isinstance(e, Exception)] *)
Definition is_Exception (e : exn) : bool :=
  match e with
  | KeyboardInterrupt => false
  | _ => true
  end.

Inductive result (A : Type) : Type :=
  | Ok (a : A)
  | Raise (e : exn).
Arguments Ok {A} a.
Arguments Raise {A} e.

Global Instance result_ret : MRet result := λ A, Ok.
Global Instance result_bind : MBind result := λ A B f m,
  match m with
  | Ok a => f a
  | Raise e => Raise e
  end.
Global Instance result_fmap : FMap result := λ A B f m,
  match m with
  | Ok a => Ok (f a)
  | Raise e => Raise e
  end.

Definition raises {A} (m : result A) : Prop := ∃ e, m = Raise e.

(** [l[i]] for a non-negative literal index [i] *)
Definition index {A} (l : list A) (i : nat) : result A :=
  match l !! i with
  | Some x => Ok x
  | None => Raise IndexError
  end.

(** [next(it)] on the remaining items of an iterator *)
Definition next {A} (it : list A) : result (A * list A) :=
  match it with
  | [] => Raise StopIteration
  | x :: rest => Ok (x, rest)
  end.

(** ** Floats

    A binary64 value is NaN, an infinity or a finite rational; comparisons
    on finite values are comparisons of rationals, every comparison with
    NaN is false. *)
Inductive pyfloat : Type :=
  | FNaN
  | FInf (negative : bool)
  | FFin (q : Q).

Definition inf : pyfloat := FInf false.
Definition nan : pyfloat := FNaN.
Definition zero : pyfloat := FFin 0.

(** [a < b] *)
Definition flt (a b : pyfloat) : bool :=
  match a, b with
  | FNaN, _ | _, FNaN => false
  | FInf true, FInf true => false
  | FInf true, _ => true
  | _, FInf true => false
  | FInf false, _ => false
  | FFin _, FInf false => true
  | FFin x, FFin y => negb (Qle_bool y x)
  end.

(** [a <= b] *)
Definition fle (a b : pyfloat) : bool :=
  match a, b with
  | FNaN, _ | _, FNaN => false
  | FInf true, _ => true
  | _, FInf true => false
  | _, FInf false => true
  | FInf false, _ => false
  | FFin x, FFin y => Qle_bool x y
  end.

(** [a == b] *)
Definition feq (a b : pyfloat) : bool := fle a b && fle b a.

(** ** Paths *)

Definition startswith (s p : string) : bool := String.prefix p s.

Fixpoint endswith (s suffix : string) : bool :=
  if decide (s = suffix) then true
  else match s with
       | "" => false
       | String _ s' => endswith s' suffix
       end.

(** [s.split(sep)] for a one-character separator *)
Fixpoint split (sep : ascii) (s : string) : list string :=
  match s with
  | "" => [""]
  | String c s' =>
      if decide (c = sep) then "" :: split sep s'
      else match split sep s' with
           | [] => [String c ""]
           | x :: xs => String c x :: xs
           end
  end.

(** [posixpath.join(a, *p)]: an absolute component discards what came
    before it, a separator is inserted unless the path so far is empty or
    already ends with one. *)
Definition os_path_join (a : string) (p : list string) : string :=
  foldl (λ path b,
           if startswith b "/" then b
           else if decide (path = "") then path +:+ b
           else if endswith path "/" then path +:+ b
           else path +:+ "/" +:+ b) a p.

(** ** What the script calls *)

Class Host : Type := {
  (** the file system *)
  world : Type;
  (** [open(path, "rt")] and reading the whole text *)
  open_rt : world → string → result string;
  os_path_exists : world → string → bool;
  os_path_isdir : world → string → bool;
  (** the calls that change the file system give the world after the
      call together with how the call ended *)
  shutil_rmtree : string → world → world * result unit;
  os_makedirs : string → world → world * result unit;
  (** [open(path, "wt")] and writing the text *)
  open_wt : string → string → world → world * result unit;
  (** [ZipFile(path).filelist], as the file names in archive order, and
      [ZipFile(path).read(name).decode("utf-8")] *)
  zip_filelist : world → string → result (list string);
  zip_read : world → string → string → result string;
  (** [str.strip] *)
  str_strip : string → string;
  (** built-ins: [None] is a [ValueError] *)
  py_float : string → option pyfloat;
  py_int : string → option Z;
  (** [f"{x:.<digits>f}"] *)
  format_f : nat → pyfloat → string;
  (** [csv.reader] on a text, [csv.writer] of rows *)
  csv_reader : string → list (list string);
  csv_writer : list (list string) → string;
  (** pymatgen *)
  Structure : Type;
  Structure_from_str : string → result Structure;
  (** the [fit] method of [StructureMatcher(ltol=0.2, stol=0.3, ...)] *)
  StructureMatcher_fit : Structure → Structure → result bool;
  (** the Environment Reporter (lines 140-189), pymatgen throughout *)
  analyze_local_environments : string → Q → Q → Q → result string;
}.

Definition float `{Host} (s : string) : result pyfloat :=
  match py_float s with
  | Some x => Ok x
  | None => Raise ValueError
  end.

Definition int `{Host} (s : string) : result Z :=
  match py_int s with
  | Some n => Ok n
  | None => Raise ValueError
  end.

(** ** Run Result Reader *)

Section Readers.
Context `{Host}.

(** The loop of lines 58-63 over the remaining lines of the reader. *)
Fixpoint best_loop (lines : list (list string))
    (best_score : pyfloat) (best_cif_fname : option string)
    : result (pyfloat * option string) :=
  match lines with
  | [] => Ok (best_score, best_cif_fname)
  | line :: rest =>
      cif_fname ← index line 0;
      cell ← index line 2;
      score ← float cell;
      if flt score best_score
      then best_loop rest score (Some cif_fname)
      else best_loop rest best_score best_cif_fname
  end.

Definition get_best_cif (w : world) (challenge_path formula : string)
    : result string :=
  let results_path := os_path_join challenge_path [formula; "results.csv"] in
  let best_score := inf in
  let best_cif_fname := None in
  f ← open_rt w results_path;
  '(_, reader) ← next (csv_reader f);
  '(_, best_cif_fname) ← best_loop reader best_score best_cif_fname;
  match best_cif_fname with
  | None => Raise TypeError
  | Some best_cif_fname =>
      let best_cif_path := os_path_join challenge_path [formula; best_cif_fname] in
      open_rt w best_cif_path
  end.

(** One entry of the map built by [read_results_csv]. *)
Record summary : Type := Summary {
  validity_rate : pyfloat;
  mean_E : pyfloat;
  min_E : pyfloat;
  best_cif : option string;
}.

(** The loop of lines 77-88. *)
Fixpoint results_loop (w : world) (challenge_path : string)
    (lines : list (list string)) (results : gmap string summary)
    : result (gmap string summary) :=
  match lines with
  | [] => Ok results
  | line :: rest =>
      formula ← index line 0;
      validity_rate ← index line 1 ≫= float;
      mean_E ← index line 2 ≫= float;
      min_E ← index line 3 ≫= float;
      best_cif ← (if flt zero validity_rate
                  then Some <$> get_best_cif w challenge_path formula
                  else Ok None);
      results_loop w challenge_path rest
        (<[formula := Summary validity_rate mean_E min_E best_cif]> results)
  end.

Definition read_results_csv (w : world) (challenge_path : string)
    : result (gmap string summary) :=
  let results_path := os_path_join challenge_path ["results.csv"] in
  f ← open_rt w results_path;
  '(_, reader) ← next (csv_reader f);
  results_loop w challenge_path reader ∅.

Definition read_props (w : world) (fname formula : string)
    : result (pyfloat * pyfloat * pyfloat * option string) :=
  results ← read_results_csv w fname;
  let validity_rate :=
    match results !! formula with Some r => validity_rate r | None => zero end in
  let min_E :=
    match results !! formula with Some r => min_E r | None => nan end in
  let mean_E :=
    match results !! formula with Some r => mean_E r | None => nan end in
  let best_cif :=
    match results !! formula with Some r => best_cif r | None => None end in
  Ok (validity_rate, min_E, mean_E, best_cif).

(** The loop of lines 106-109. *)
Fixpoint energies_loop (lines : list (list string))
    (energies : gmap string pyfloat) : result (gmap string pyfloat) :=
  match lines with
  | [] => Ok energies
  | line :: rest =>
      formula ← index line 0;
      energy ← index line 1 ≫= float;
      energies_loop rest (<[formula := energy]> energies)
  end.

Definition read_alignn_energies (w : world) (fname : string)
    : result (gmap string pyfloat) :=
  f ← open_rt w fname;
  '(_, reader) ← next (csv_reader f);
  energies_loop reader ∅.

Definition is_valid_on_first (w : world) (formula_dir : string)
    : result bool :=
  let fname := os_path_join formula_dir ["results.csv"] in
  if negb (os_path_exists w fname) then Ok false
  else
    f ← open_rt w fname;
    '(_, reader) ← next (csv_reader f);
    '(first_line, _) ← next reader;
    iteration ← index first_line 1 ≫= int;
    if decide (iteration = 1%Z) then Ok true else Ok false.

(** ** Match Evaluator *)

Definition matches_true (true_cif : string) (best_cif : option string)
    (struct_matcher : Structure → Structure → result bool) : result bool :=
  match best_cif with
  | None => Ok false
  | Some best_cif =>
      true_struct ← Structure_from_str true_cif;
      gen_struct ← Structure_from_str best_cif;
      match struct_matcher true_struct gen_struct with
      | Ok is_match => Ok is_match
      | Raise e => if is_Exception e then Ok false else Raise e
      end
  end.

End Readers.

(** ** Dataset Loader *)

Section Loader.
Context `{Host}.

(** The loop of lines 32-36 over the rows of [metadata.csv]. *)
Fixpoint metadata_loop (lines : list (list string))
    (training_set_formulas : gset string) : result (gset string) :=
  match lines with
  | [] => Ok training_set_formulas
  | line :: rest =>
      formula ← str_strip <$> index line 0;
      source ← str_strip <$> index line 1;
      if decide (source = "training set")
      then metadata_loop rest ({[formula]} ∪ training_set_formulas)
      else metadata_loop rest training_set_formulas
  end.

(** The loop of lines 24-46 over [input_zip.filelist]. *)
Fixpoint filelist_loop (w : world) (challenge_set_path : string)
    (filelist : list string)
    (challenge_set : gmap string string) (training_set_formulas : gset string)
    : result (gmap string string * gset string) :=
  match filelist with
  | [] => Ok (challenge_set, training_set_formulas)
  | filename :: rest =>
      let components := split "/" filename in
      last_component ← index (reverse components) 0;
      if decide (last_component = "metadata.csv") then
        content ← zip_read w challenge_set_path filename;
        '(_, reader) ← next (csv_reader content);
        training_set_formulas ← metadata_loop reader training_set_formulas;
        filelist_loop w challenge_set_path rest challenge_set training_set_formulas
      else if decide (length components < 3 ∨ String.length last_component = 0) then
        filelist_loop w challenge_set_path rest challenge_set training_set_formulas
      else
        formula ← index components 1;
        fname ← index components 2;
        if endswith fname "pymatgen.cif" then
          content ← zip_read w challenge_set_path filename;
          filelist_loop w challenge_set_path rest
            (<[formula := content]> challenge_set) training_set_formulas
        else
          filelist_loop w challenge_set_path rest challenge_set training_set_formulas
  end.

Definition read_challenge_set (w : world) (challenge_set_path : string)
    : result (gmap string string * gset string) :=
  filelist ← zip_filelist w challenge_set_path;
  filelist_loop w challenge_set_path filelist ∅ ∅.

End Loader.

(** ** Aggregator/Reporter

    The entry point changes the file system, four two-slot counters and
    the list of output rows.  A computation takes the state before it and
    gives the state after it, the states it went through (one per change,
    in order) and how it ended; an exception leaves the state as it was
    when it was raised. *)

(** The file system and the variables of the entry point. *)
Record state_of (W : Type) : Type := State {
  fs : W;
  validity_count : list Z;
  valid_on_first_count : list Z;
  match_true_count_all : list Z;
  match_true_count_unseen : list Z;
  rows : list (list string);
}.
Arguments State {W} _ _ _ _ _ _.
Arguments fs {W} _.
Arguments validity_count {W} _.
Arguments valid_on_first_count {W} _.
Arguments match_true_count_all {W} _.
Arguments match_true_count_unseen {W} _.
Arguments rows {W} _.

Section Aggregator.
Context `{Host}.

Definition state : Type := state_of world.

Definition M (A : Type) : Type := state → state * list state * result A.

Global Instance M_ret : MRet M := λ A a s, (s, [], Ok a).
Global Instance M_bind : MBind M := λ A B f m s,
  match m s with
  | (s1, t1, Ok a) => let '(s2, t2, r) := f a s1 in (s2, (t1 ++ t2)%list, r)
  | (s1, t1, Raise e) => (s1, t1, Raise e)
  end.

Global Instance M_fmap : FMap M := λ A B f m, a ← m; mret (f a).

(** a call that only reads the file system *)
Definition reading {A} (f : world → result A) : M A :=
  λ s, (s, [], f (fs s)).

(** a pure call that may raise *)
Definition lift {A} (r : result A) : M A := λ s, (s, [], r).

(** a call that changes the file system *)
Definition sys (op : world → world * result unit) : M unit :=
  λ s, let '(w, r) := op (fs s) in
       let s' := State w (validity_count s) (valid_on_first_count s)
                   (match_true_count_all s) (match_true_count_unseen s) (rows s) in
       (s', [s'], r).

(** an assignment to the script's variables, which may raise *)
Definition assign (f : state → result state) : M unit :=
  λ s, match f s with
       | Ok s' => (s', [s'], Ok ())
       | Raise e => (s, [], Raise e)
       end.

Definition when (b : bool) (m : M unit) : M unit :=
  if b then m else mret ().

Fixpoint for_ {A} (l : list A) (body : A → M unit) : M unit :=
  match l with
  | [] => mret ()
  | x :: rest => body x ;; for_ rest body
  end.

(** [counter[i] += 1] *)
Definition incr (counter : list Z) (i : nat) : result (list Z) :=
  n ← index counter i;
  Ok (<[i := (n + 1)%Z]> counter).

Definition incr_validity_count (i : nat) : M unit :=
  assign (λ s, c ← incr (validity_count s) i;
               Ok (State (fs s) c (valid_on_first_count s)
                     (match_true_count_all s) (match_true_count_unseen s) (rows s))).

Definition incr_valid_on_first_count (i : nat) : M unit :=
  assign (λ s, c ← incr (valid_on_first_count s) i;
               Ok (State (fs s) (validity_count s) c
                     (match_true_count_all s) (match_true_count_unseen s) (rows s))).

Definition incr_match_true_count_all (i : nat) : M unit :=
  assign (λ s, c ← incr (match_true_count_all s) i;
               Ok (State (fs s) (validity_count s) (valid_on_first_count s)
                     c (match_true_count_unseen s) (rows s))).

Definition incr_match_true_count_unseen (i : nat) : M unit :=
  assign (λ s, c ← incr (match_true_count_unseen s) i;
               Ok (State (fs s) (validity_count s) (valid_on_first_count s)
                     (match_true_count_all s) c (rows s))).

(** [rows.append(row)] *)
Definition rows_append (row : list string) : M unit :=
  assign (λ s, Ok (State (fs s) (validity_count s) (valid_on_first_count s)
                     (match_true_count_all s) (match_true_count_unseen s)
                     (rows s ++ [row])%list)).

Definition write_file (root_dir formula content fname : string) : M unit :=
  sys (open_wt (os_path_join root_dir [formula; fname]) content).

Definition write_cif_and_envs (root_dir formula cif name : string)
    (distance_cutoff angle_cutoff max_dist_factor : Q) : M unit :=
  write_file root_dir formula cif (name +:+ ".cif") ;;
  environments ← lift (analyze_local_environments cif
                         distance_cutoff angle_cutoff max_dist_factor);
  write_file root_dir formula environments (name +:+ "_envs.txt").

(** [d[key]] *)
Definition getitem {V} (d : gmap string V) (key : string) : result V :=
  match d !! key with
  | Some v => Ok v
  | None => Raise (KeyError key)
  end.

(** Truth value of an optional string: [None] and [""] are false. *)
Definition truthy (x : option string) : bool :=
  match x with
  | None => false
  | Some s => negb (bool_decide (s = ""))
  end.

Definition yes_no (b : bool) : string := if b then "yes" else "no".

(** [sorted(d)]: the keys in lexicographic order.  Python orders strings
    by code point, which for UTF-8 texts is the order of their bytes. *)
Definition string_le (s1 s2 : string) : Prop := String.leb s1 s2 = true.

Global Instance string_le_dec : RelDecision string_le :=
  λ s1 s2, decide (String.leb s1 s2 = true).

Definition sorted {V} (d : gmap string V) : list string :=
  merge_sort string_le (elements (dom d)).

Definition model : string := "cif_model_35".
Definition model_dir : string := "../out".
Definition challenge_set_path : string := "../out/ChallengeSet-v1.zip".
Definition out_dir : string := "../out/cif_model_35_ChallengeSet-v1_analysis/".
Definition distance_cutoff : Q := 1.
Definition angle_cutoff : Q := 3 # 10.
Definition max_dist_factor : Q := 3 # 2.

Definition header : list string :=
  ["formula"; "seen_in_trainig"; "true_E"; "includes_space_group";
   "mean_E"; "min_E"; "pct_valid"; "valid_on_first"; "matches_true"].

(** Lines 254-284 for the run without space group ([i = 0], [suffix =
    "_challenge"]) and lines 286-315 for the run with it ([i = 1],
    [suffix = "_challenge_sg"]); the two passages differ in the run
    directory, the name of the written files, the fourth field of the row
    and the counter slot.  [seen] is assigned once, at line 257, and read
    in both passages. *)
Definition variant (i : nat) (suffix name includes_space_group : string)
    (training_set_formulas : gset string)
    (formula true_cif : string) (alignn_E : pyfloat) (seen : string) : M unit :=
  '(validity_rate, min_E, mean_E, best_cif) ←
    reading (λ w, read_props w (os_path_join model_dir [model +:+ suffix]) formula);
  valid_on_first ← yes_no <$>
    reading (λ w, is_valid_on_first w (os_path_join model_dir [model +:+ suffix; formula]));
  is_match ← yes_no <$> lift (matches_true true_cif best_cif StructureMatcher_fit);
  when (truthy best_cif)
    (write_cif_and_envs out_dir formula (default "" best_cif) name
       distance_cutoff angle_cutoff max_dist_factor) ;;
  rows_append
    [formula;
     if decide (formula ∈ training_set_formulas) then "yes" else "no";
     format_f 5 alignn_E;
     includes_space_group;
     format_f 5 mean_E;
     format_f 5 min_E;
     format_f 2 validity_rate;
     valid_on_first;
     is_match] ;;
  when (flt zero validity_rate) (incr_validity_count i) ;;
  when (bool_decide (valid_on_first = "yes")) (incr_valid_on_first_count i) ;;
  when (bool_decide (is_match = "yes"))
    (incr_match_true_count_all i ;;
     when (negb (startswith seen "*")) (incr_match_true_count_unseen i)).

(** The body of the loop of line 244. *)
Definition formula_body (alignn_energies : gmap string pyfloat)
    (challenge_set : gmap string string) (training_set_formulas : gset string)
    (formula : string) : M unit :=
  sys (os_makedirs (os_path_join out_dir [formula])) ;;
  true_cif ← lift (getitem challenge_set formula);
  alignn_E ← lift (getitem alignn_energies formula);
  write_cif_and_envs out_dir formula true_cif "true"
    distance_cutoff angle_cutoff max_dist_factor ;;
  let seen := if decide (formula ∈ training_set_formulas) then "* " else "" in
  variant 0 "_challenge" "best_gen_no_spacegroup" "no"
    training_set_formulas formula true_cif alignn_E seen ;;
  variant 1 "_challenge_sg" "best_gen_with_spacegroup" "yes"
    training_set_formulas formula true_cif alignn_E seen.

(** Lines 232-332: the counters, the loop and the consolidated table. *)
Definition main_loop (alignn_energies : gmap string pyfloat)
    (challenge_set : gmap string string) (training_set_formulas : gset string)
    : M unit :=
  assign (λ s, Ok (State (fs s) [0; 0] [0; 0] [0; 0] [0; 0] []))%Z ;;
  for_ (sorted challenge_set)
    (formula_body alignn_energies challenge_set training_set_formulas) ;;
  rows ← (λ s, (s, [], Ok (rows s)));
  sys (open_wt (os_path_join out_dir ["results.csv"]) (csv_writer (header :: rows))).

Definition main : M unit :=
  alignn_energies ←
    reading (λ w, read_alignn_energies w "../out/ChallengeSet-v1.alignn_energies.csv");
  '(challenge_set, training_set_formulas) ←
    reading (λ w, read_challenge_set w challenge_set_path);
  exists_and_isdir ←
    reading (λ w, Ok (os_path_exists w out_dir && os_path_isdir w out_dir));
  when exists_and_isdir (sys (shutil_rmtree out_dir)) ;;
  sys (os_makedirs out_dir) ;;
  main_loop alignn_energies challenge_set training_set_formulas.

End Aggregator.

(** ** Notions used in the statements *)

Section Notions.
Context `{Host}.

(** *** Run Result Reader *)

(** In every entry of the summary map a validity rate that is not above
    zero goes with no best candidate. *)
Definition no_candidate_unless_valid (results : gmap string summary) : Prop :=
  ∀ formula r, results !! formula = Some r →
    flt zero (validity_rate r) = false → best_cif r = None.

(** A line of the candidate table that has a file name and a score. *)
Definition candidate_row (line : list string) (c : string * pyfloat) : Prop :=
  line !! 0%nat = Some c.1 ∧
  ∃ cell, line !! 2%nat = Some cell ∧ py_float cell = Some c.2.

(** One pass of the loop body on a parsed candidate. *)
Definition keep_lower (best : pyfloat * option string) (c : string * pyfloat)
    : pyfloat * option string :=
  if flt c.2 best.1 then (c.2, Some c.1) else best.

(** What the loop has after the candidates [seen]: no candidate seen is
    below the best score, and the best name, once set, is the name of the
    earliest candidate seen with that score, which is below infinity. *)
Definition best_so_far (seen : list (string * pyfloat))
    (best : pyfloat * option string) : Prop :=
  (∀ c, c ∈ seen → flt c.2 best.1 = false) ∧
  match best.2 with
  | None => best.1 = inf
  | Some name =>
      ∃ i, seen !! i = Some (name, best.1) ∧
           flt best.1 inf = true ∧
           ∀ j c, (j < i)%nat → seen !! j = Some c → fle c.2 best.1 = false
  end.

(** A line of the summary table for formula [g] with validity rate [vr]. *)
Definition summary_row (line : list string) (g : string) (vr : pyfloat) : Prop :=
  line !! 0%nat = Some g ∧
  ∃ cell, line !! 1%nat = Some cell ∧ py_float cell = Some vr.

(** *** Aggregator/Reporter *)

(** The state in which the loop starts (lines 232-235 and 242). *)
Definition start (s : state) : state :=
  State (fs s) [0; 0]%Z [0; 0]%Z [0; 0]%Z [0; 0]%Z [].

(** What follows the initialisation: the loop and the writing of the table. *)
Definition loop_and_table (alignn_energies : gmap string pyfloat)
    (challenge_set : gmap string string) (training_set_formulas : gset string)
    : M unit :=
  for_ (sorted challenge_set)
    (formula_body alignn_energies challenge_set training_set_formulas) ;;
  rows ← (λ s, (s, [], Ok (rows s)));
  sys (open_wt (os_path_join out_dir ["results.csv"]) (csv_writer (header :: rows))).

Definition preserves {A} (I : state → Prop) (m : M A) : Prop :=
  ∀ s, I s → I (m s).1.1 ∧ Forall I (m s).1.2.

(** In both slots the count of matches among unseen formulas is at most
    the count of all matches. *)
Definition unseen_le_all (s : state) : Prop :=
  ∃ u0 u1 a0 a1 : Z,
    match_true_count_unseen s = [u0; u1] ∧
    match_true_count_all s = [a0; a1] ∧
    (u0 ≤ a0)%Z ∧ (u1 ≤ a1)%Z.

(** The formula and the [includes_space_group] field of every row. *)
Definition key_columns (rows : list (list string))
    : list (option string * option string) :=
  (λ row, (row !! 0%nat, row !! 3%nat)) <$> rows.

(** A computation that returns has added rows with the key columns [ks]. *)
Definition appends_keys {A} (m : M A)
    (ks : list (option string * option string)) : Prop :=
  ∀ s s' tr a, m s = (s', tr, Ok a) →
    key_columns (rows s') = (key_columns (rows s) ++ ks)%list.

(** Two states with the same variables and with file systems related by
    [R]. *)
Definition agree (R : world → world → Prop) (s1 s2 : state) : Prop :=
  R (fs s1) (fs s2) ∧
  validity_count s1 = validity_count s2 ∧
  valid_on_first_count s1 = valid_on_first_count s2 ∧
  match_true_count_all s1 = match_true_count_all s2 ∧
  match_true_count_unseen s1 = match_true_count_unseen s2 ∧
  rows s1 = rows s2.

(** In file systems related by [R] the Run Result Reader returns the same
    for both runs and every formula. *)
Definition same_reads (R : world → world → Prop) : Prop :=
  ∀ w1 w2 suffix formula,
    R w1 w2 → suffix ∈ ["_challenge"; "_challenge_sg"] →
    read_props w1 (os_path_join model_dir [model +:+ suffix]) formula
      = read_props w2 (os_path_join model_dir [model +:+ suffix]) formula ∧
    is_valid_on_first w1 (os_path_join model_dir [model +:+ suffix; formula])
      = is_valid_on_first w2 (os_path_join model_dir [model +:+ suffix; formula]).

(** [R] still holds after the same directory was made or the same text was
    written to the same path on both sides. *)
Definition kept_by_writes (R : world → world → Prop) : Prop :=
  ∀ w1 w2 w1' w2',
    R w1 w2 →
    (∀ path, os_makedirs path w1 = (w1', Ok ()) →
             os_makedirs path w2 = (w2', Ok ()) → R w1' w2') ∧
    (∀ path text, open_wt path text w1 = (w1', Ok ()) →
                  open_wt path text w2 = (w2', Ok ()) → R w1' w2').

(** From states that agree, two runs of a computation that both return
    give the same value and end in states that agree. *)
Definition corresponds (R : world → world → Prop) {A} (m : M A) : Prop :=
  ∀ s1 s2 s1' s2' t1 t2 a1 a2,
    agree R s1 s2 →
    m s1 = (s1', t1, Ok a1) → m s2 = (s2', t2, Ok a2) →
    a1 = a2 ∧ agree R s1' s2'.

End Notions.

(** ** A small host to run the script on

    Files are texts under their path (the latest one first), directories a
    list of paths, archives lists of named texts.  The built-ins cover the
    literals that the runs below use: decimal numbers without exponent,
    [inf] and [nan]; comma-separated lines without quoting; a structure
    text is accepted when it starts with [data_]. *)

Module Demo.

Record fsys : Type := Fsys {
  files : list (string * string);
  dirs : list string;
  archives : list (string * list (string * string));
}.

(** The value under the first occurrence of a key. *)
Fixpoint assoc {V} (key : string) (l : list (string * V)) : option V :=
  match l with
  | [] => None
  | (k, v) :: more => if decide (k = key) then Some v else assoc key more
  end.

Definition read (w : fsys) (path : string) : result string :=
  match assoc path (files w) with
  | Some text => Ok text
  | None => Raise (FileNotFoundError path)
  end.

Definition isdir (w : fsys) (path : string) : bool :=
  bool_decide (path ∈ dirs w).

Definition exists_ (w : fsys) (path : string) : bool :=
  bool_decide (is_Some (assoc path (files w))) || isdir w path.

Definition rmtree (path : string) (w : fsys) : fsys * result unit :=
  if isdir w path
  then (Fsys (filter (λ kv, negb (startswith kv.1 path) = true) (files w))
             (filter (λ d, negb (startswith d path) = true) (dirs w))
             (archives w), Ok ())
  else (w, Raise (FileNotFoundError path)).

Definition makedirs (path : string) (w : fsys) : fsys * result unit :=
  if exists_ w path then (w, Raise (FileExistsError path))
  else (Fsys (files w) (path :: dirs w) (archives w), Ok ()).

Definition write (path text : string) (w : fsys) : fsys * result unit :=
  if isdir w path then (w, Raise (OSError path))
  else (Fsys ((path, text) :: files w) (dirs w) (archives w), Ok ()).

Definition filelist (w : fsys) (path : string) : result (list string) :=
  match assoc path (archives w) with
  | Some entries => Ok (entries.*1)
  | None => Raise (FileNotFoundError path)
  end.

Definition zread (w : fsys) (path name : string) : result string :=
  match assoc path (archives w) with
  | Some entries =>
      match assoc name (reverse entries) with
      | Some text => Ok text
      | None => Raise (KeyError name)
      end
  | None => Raise (FileNotFoundError path)
  end.

Fixpoint digits (s : string) (acc : N) : option N :=
  match s with
  | "" => Some acc
  | String c s' =>
      let n := Ascii.N_of_ascii c in
      if ((48 <=? n) && (n <=? 57))%N then digits s' (acc * 10 + (n - 48))%N
      else None
  end.

Definition number (s : string) : option N :=
  if decide (s = "") then None else digits s 0%N.

Definition unsigned (s : string) : option Q :=
  match split "." s with
  | [i] => n ← number i; Some (Z.of_N n # 1)
  | [i; f] =>
      n ← number i; m ← number f;
      let scale := (10 ^ N.of_nat (String.length f))%N in
      Some (Z.of_N (n * scale + m) # N.succ_pos (N.pred scale))
  | _ => None
  end.

Definition parse_float (s : string) : option pyfloat :=
  if decide (s = "nan") then Some FNaN
  else if decide (s = "inf") then Some (FInf false)
  else if decide (s = "-inf") then Some (FInf true)
  else match s with
       | String "-" s' => q ← unsigned s'; Some (FFin (- q))
       | _ => FFin <$> unsigned s
       end.

Definition parse_int (s : string) : option Z :=
  match s with
  | String "-" s' => n ← number s'; Some (- Z.of_N n)%Z
  | _ => Z.of_N <$> number s
  end.

Fixpoint zeros (n : nat) : string :=
  match n with
  | O => ""
  | S n' => String "0" (zeros n')
  end.

(** Fixed-point rendering, rounding half to even. *)
Definition render (d : nat) (x : pyfloat) : string :=
  match x with
  | FNaN => "nan"
  | FInf false => "inf"
  | FInf true => "-inf"
  | FFin q =>
      let a := (Z.abs (Qnum q) * 10 ^ Z.of_nat d)%Z in
      let den := Z.pos (Qden q) in
      let quot := (a / den)%Z in
      let rem := (a mod den)%Z in
      let up := bool_decide (den < 2 * rem)%Z
                || (bool_decide (2 * rem = den)%Z && Z.odd quot) in
      let n := if up then (quot + 1)%Z else quot in
      let ds := pretty (Z.to_N n) in
      let ds := zeros (S d - String.length ds) +:+ ds in
      let k := (String.length ds - d)%nat in
      (if bool_decide (Qnum q < 0)%Z then "-" else "")
      +:+ String.substring 0 k ds
      +:+ (if decide (d = 0%nat) then "" else "." +:+ String.substring k d ds)
  end.

Definition lines (text : string) : list string :=
  match reverse (split "010" text) with
  | "" :: more => reverse more
  | _ => split "010" text
  end.

Definition rows_of (text : string) : list (list string) :=
  (λ l, if decide (l = "") then [] else split "," l) <$> lines text.

Definition join (sep : string) (cells : list string) : string :=
  match cells with
  | [] => ""
  | c :: more => foldl (λ acc x, acc +:+ sep +:+ x) c more
  end.

Definition text_of (rows : list (list string)) : string :=
  foldr (λ row acc, join "," row +:+ String "013" (String "010" acc)) "" rows.

Definition parse_structure (text : string) : result string :=
  if startswith text "data_" then Ok text else Raise ValueError.

Definition same (a b : string) : result bool := Ok (bool_decide (a = b)).

Definition environments (cif : string) (_ _ _ : Q) : result string :=
  _ ← parse_structure cif; Ok "".

Definition strip (s : string) : string :=
  let fix lstrip s :=
    match s with
    | String " " s' => lstrip s'
    | _ => s
    end in
  String.rev (lstrip (String.rev (lstrip s))).

#[export] Instance host : Host := {|
  world := fsys;
  open_rt := read;
  os_path_exists := exists_;
  os_path_isdir := isdir;
  shutil_rmtree := rmtree;
  os_makedirs := makedirs;
  open_wt := write;
  zip_filelist := filelist;
  zip_read := zread;
  str_strip := strip;
  py_float := parse_float;
  py_int := parse_int;
  format_f := render;
  csv_reader := rows_of;
  csv_writer := text_of;
  Structure := string;
  Structure_from_str := parse_structure;
  StructureMatcher_fit := same;
  analyze_local_environments := environments;
|}.

(** A file system from a list of files. *)
Definition disk (fl : list (string * string)) : fsys :=
  Fsys fl [] [].

End Demo.

(** ** Inputs of the runs on the small host *)

Module Runs.
Import Demo.

(** A text from its lines, each ended by a line feed. *)
Definition text (ls : list string) : string :=
  foldr (λ l acc, l +:+ String "010" acc) "" ls.

Definition no_sg : string := "../out/cif_model_35_challenge".
Definition with_sg : string := "../out/cif_model_35_challenge_sg".

(** A run with two formulas in its summary table: NaCl with two candidates,
    Li2O with none. *)
Definition complete : fsys :=
  disk [
    (no_sg +:+ "/results.csv",
     text ["formula,validity_rate,mean_E,min_E";
           "NaCl,1.0,-3.5,-4.0";
           "Li2O,0.0,nan,nan"]);
    (no_sg +:+ "/NaCl/results.csv",
     text ["cif,iteration,score"; "c1.cif,2,5.0"; "c2.cif,1,3.0"]);
    (no_sg +:+ "/NaCl/c1.cif", "data_c1");
    (no_sg +:+ "/NaCl/c2.cif", "data_NaCl");
    (with_sg +:+ "/results.csv",
     text ["formula,validity_rate,mean_E,min_E"])
  ].

(** The same run without the candidate table of NaCl. *)
Definition table_missing : fsys :=
  disk [
    (no_sg +:+ "/results.csv",
     text ["formula,validity_rate,mean_E,min_E";
           "NaCl,1.0,-3.5,-4.0";
           "Li2O,0.0,nan,nan"])
  ].

(** A candidate table with its header only. *)
Definition table_empty : fsys :=
  disk [ (no_sg +:+ "/NaCl/results.csv", text ["cif,iteration,score"]) ].

(** A candidate table whose only score is infinite. *)
Definition score_inf : fsys :=
  disk [
    (no_sg +:+ "/NaCl/results.csv", text ["cif,iteration,score"; "c1.cif,1,inf"]);
    (no_sg +:+ "/NaCl/c1.cif", "data_c1")
  ].

(** Two candidates with the same lowest score. *)
Definition tie : fsys :=
  disk [
    (no_sg +:+ "/NaCl/results.csv",
     text ["cif,iteration,score"; "c1.cif,1,3.0"; "c2.cif,2,3.0"]);
    (no_sg +:+ "/NaCl/c1.cif", "data_c1");
    (no_sg +:+ "/NaCl/c2.cif", "data_c2")
  ].

Definition summary_of (w : fsys) : gmap string summary :=
  match read_results_csv w no_sg with
  | Ok results => results
  | Raise _ => ∅
  end.

Definition before_loop (w : fsys) : state := State w [] [] [] [] [].

Definition one_formula : gmap string string := {[ "NaCl" := "data_NaCl" ]}.
Definition two_formulas : gmap string string :=
  {[ "NaCl" := "data_NaCl"; "Li2O" := "data_Li2O" ]}.
Definition energy_of_NaCl : gmap string pyfloat := {[ "NaCl" := FFin (- 39 # 10) ]}.
Definition energy_of_Li2O : gmap string pyfloat := {[ "Li2O" := FFin (- 6 # 1) ]}.

(** The inputs of a whole run: the archive, the energy table and the two
    run directories of [complete]. *)
Definition whole : fsys :=
  Fsys
    (("../out/ChallengeSet-v1.alignn_energies.csv",
      text ["formula,energy"; "NaCl,-3.9"]) :: files complete)
    ["../out"]
    [("../out/ChallengeSet-v1.zip",
      [("ChallengeSet-v1/", "");
       ("ChallengeSet-v1/metadata.csv",
        text ["formula,source"; "NaCl, training set"; "Li2O,test set"]);
       ("ChallengeSet-v1/NaCl/", "");
       ("ChallengeSet-v1/NaCl/NaCl_pymatgen.cif", "data_NaCl");
       ("ChallengeSet-v1/NaCl/NaCl.poscar", "NaCl")])].

(** The run over the challenge set with NaCl only. *)
Definition one_run : state * list state * result unit :=
  main_loop energy_of_NaCl one_formula ∅ (before_loop complete).

End Runs.

(** ** Further notions *)

(** The value of the last pair with the given key. *)
Fixpoint last_for {V} (key : string) (l : list (string * V)) : option V :=
  match l with
  | [] => None
  | (k, v) :: rest =>
      match last_for key rest with
      | Some v' => Some v'
      | None => if decide (k = key) then Some v else None
      end
  end.

(** The character occurs in the string. *)
Fixpoint contains (c : ascii) (s : string) : bool :=
  match s with
  | "" => false
  | String c' s' => if decide (c' = c) then true else contains c s'
  end.

(** The formula for which an archive entry holds the structure, if the
    entry is a structure file: not a [metadata.csv], at least three path
    components, the last one not empty, the third one ending with
    [pymatgen.cif]; the formula is the second component. *)
Definition structure_formula (filename : string) : option string :=
  let components := split "/" filename in
  match reverse components !! 0%nat with
  | None => None
  | Some last_component =>
      if decide (last_component = "metadata.csv") then None
      else if decide (length components < 3 ∨ String.length last_component = 0)
      then None
      else match components !! 1%nat, components !! 2%nat with
           | Some formula, Some fname =>
               if endswith fname "pymatgen.cif" then Some formula else None
           | _, _ => None
           end
  end.

(** The archive entry is a metadata table. *)
Definition is_metadata (filename : string) : Prop :=
  reverse (split "/" filename) !! 0%nat = Some "metadata.csv".

Section FurtherNotions.
Context `{Host}.

(** A data row of the energy table: a formula and its energy. *)
Definition energy_row (line : list string) (c : string * pyfloat) : Prop :=
  line !! 0%nat = Some c.1 ∧
  ∃ cell, line !! 1%nat = Some cell ∧ py_float cell = Some c.2.

(** A data row of the summary table: a formula with its validity rate,
    mean energy and minimal energy. *)
Definition summary_fields (line : list string)
    (c : string * (pyfloat * pyfloat * pyfloat)) : Prop :=
  line !! 0%nat = Some c.1 ∧
  (∃ cell, line !! 1%nat = Some cell ∧ py_float cell = Some c.2.1.1) ∧
  (∃ cell, line !! 2%nat = Some cell ∧ py_float cell = Some c.2.1.2) ∧
  (∃ cell, line !! 3%nat = Some cell ∧ py_float cell = Some c.2.2).

(** In every entry of the summary map the best candidate is what
    [get_best_cif] returns for the formula when the validity rate is above
    zero, and none otherwise. *)
Definition best_cif_as_selected (w : world) (challenge_path : string)
    (results : gmap string summary) : Prop :=
  ∀ formula r, results !! formula = Some r →
    if flt zero (validity_rate r)
    then ∃ cif, get_best_cif w challenge_path formula = Ok cif ∧
                best_cif r = Some cif
    else best_cif r = None.

(** A row of a metadata table that puts [formula] in the training set. *)
Definition training_row (line : list string) (formula : string) : Prop :=
  ∃ a b, line !! 0%nat = Some a ∧ line !! 1%nat = Some b ∧
         str_strip a = formula ∧ str_strip b = "training set".

(** An entry of the archive that is a metadata table with such a row
    after its header. *)
Definition training_entry (w : world) (challenge_set_path : string)
    (filename formula : string) : Prop :=
  is_metadata filename ∧
  ∃ content header rows line,
    zip_read w challenge_set_path filename = Ok content ∧
    csv_reader content = header :: rows ∧
    line ∈ rows ∧ training_row line formula.

(** *** Aggregator/Reporter *)

(** The state a computation ends in has the property whenever the state it
    starts in has it, however the computation ends. *)
Definition keeps {A} (I : state → Prop) (m : M A) : Prop :=
  ∀ s, I s → I (m s).1.1.

(** The computation can return the value. *)
Definition returns {A} (m : M A) (a : A) : Prop :=
  ∃ s, (m s).2 = Ok a.

(** The number of rows of a run variant, given by the
    [includes_space_group] field, and the number of those with [yes] in a
    given column. *)
Definition variant_rows (label : string) (rows : list (list string)) : Z :=
  Z.of_nat (length (filter (λ row, row !! 3%nat = Some label) rows)).

Definition yes_rows (column : nat) (label : string)
    (rows : list (list string)) : Z :=
  Z.of_nat (length (filter (λ row, row !! 3%nat = Some label ∧
                                   row !! column = Some "yes") rows)).

(** The counters against the rows: per run variant, the first-attempt
    counter and the all-matches counter are the numbers of rows with [yes]
    in their column, the can-generate counter is between the all-matches
    counter and the number of rows, the unseen-matches counter between
    zero and the all-matches counter. *)
Definition counts_agree (s : state) : Prop :=
  ∃ v0 v1 f0 f1 a0 a1 u0 u1 : Z,
    validity_count s = [v0; v1] ∧
    valid_on_first_count s = [f0; f1] ∧
    match_true_count_all s = [a0; a1] ∧
    match_true_count_unseen s = [u0; u1] ∧
    f0 = yes_rows 7 "no" (rows s) ∧ f1 = yes_rows 7 "yes" (rows s) ∧
    a0 = yes_rows 8 "no" (rows s) ∧ a1 = yes_rows 8 "yes" (rows s) ∧
    (a0 ≤ v0 ≤ variant_rows "no" (rows s))%Z ∧
    (a1 ≤ v1 ≤ variant_rows "yes" (rows s))%Z ∧
    (0 ≤ u0 ≤ a0)%Z ∧ (0 ≤ u1 ≤ a1)%Z.

Definition yes_or_no (cell : option string) : Prop :=
  cell = Some "yes" ∨ cell = Some "no".

(** A row of the table: as many fields as the header; a formula of the
    challenge set with its provenance label and its formatted reference
    energy; [yes] or [no] in the fields for the run variant, the first
    attempt and the match. *)
Definition row_ok (alignn_energies : gmap string pyfloat)
    (challenge_set : gmap string string) (training_set_formulas : gset string)
    (row : list string) : Prop :=
  length row = length header ∧
  (∃ formula energy,
     row !! 0%nat = Some formula ∧
     is_Some (challenge_set !! formula) ∧
     alignn_energies !! formula = Some energy ∧
     row !! 2%nat = Some (format_f 5 energy) ∧
     row !! 1%nat =
       Some (if decide (formula ∈ training_set_formulas) then "yes" else "no")) ∧
  yes_or_no (row !! 3%nat) ∧ yes_or_no (row !! 7%nat) ∧ yes_or_no (row !! 8%nat).

Definition summary_ok (alignn_energies : gmap string pyfloat)
    (challenge_set : gmap string string) (training_set_formulas : gset string)
    (s : state) : Prop :=
  Forall (row_ok alignn_energies challenge_set training_set_formulas) (rows s) ∧
  counts_agree s.

End FurtherNotions.

(** ** Further inputs of the runs on the small host *)

Module Runs2.
Import Demo.

(** An energy table with two rows for NaCl and one without a float. *)
Definition energies_twice : fsys :=
  disk [
    ("energies.csv",
     Runs.text ["formula,energy"; "NaCl,-3.9"; "Li2O,-6.0"; "NaCl,-4.1"]);
    ("broken.csv",
     Runs.text ["formula,energy"; "NaCl,-3.9"; "Li2O,unknown"])
  ].

(** A summary table with two rows for NaCl. *)
Definition summary_twice : fsys :=
  disk [
    (Runs.no_sg +:+ "/results.csv",
     Runs.text ["formula,validity_rate,mean_E,min_E";
                "NaCl,0.0,-1.0,-2.0";
                "NaCl,0.0,-3.0,-4.0"])
  ].

(** An archive with two structure files for NaCl, a metadata table and
    entries that are no structure files. *)
Definition archive_twice : fsys :=
  Fsys [] []
    [("set.zip",
      [("set/metadata.csv",
        Runs.text ["formula,source"; "NaCl,training set"; "K2O, training set ";
                   "Li2O,test set"]);
       ("set/NaCl/", "");
       ("set/NaCl/old_pymatgen.cif", "data_old");
       ("set/NaCl/NaCl.poscar", "NaCl");
       ("set/NaCl/new_pymatgen.cif", "data_new");
       ("top_pymatgen.cif", "data_top")])].

Definition loaded : gmap string string * gset string :=
  match read_challenge_set archive_twice "set.zip" with
  | Ok r => r
  | Raise _ => (∅, ∅)
  end.

(** The first row of the run over the challenge set with NaCl only. *)
Definition first_row : list string :=
  ["NaCl"; "no"; "-3.90000"; "no"; "-3.50000"; "-4.00000"; "1.00"; "no"; "yes"].

(** A state with an empty file system. *)
Definition empty : state := State (disk []) [] [] [] [] [].

End Runs2.

(** ** Properties of the floats *)

Lemma flt_irrefl a : flt a a = false.
Proof.
  destruct a as [|[]|q]; simpl; try reflexivity.
  apply negb_false_iff, Qle_bool_iff. lra.
Qed.

Lemma feq_not_flt a b : feq a b = true → flt b a = false.
Proof.
  unfold feq. intros [Hab _]%andb_true_iff.
  destruct a as [|[]|x], b as [|[]|y]; simpl in *; try done.
  by rewrite Hab.
Qed.

Lemma flt_trans a b c : flt a b = true → flt b c = true → flt a c = true.
Proof.
  destruct a as [|[]|x], b as [|[]|y], c as [|[]|z]; simpl; try done.
  rewrite !negb_true_iff, <- !not_true_iff_false, !Qle_bool_iff. lra.
Qed.

Lemma fle_flt_trans a b c : fle a b = true → flt b c = true → flt a c = true.
Proof.
  destruct a as [|[]|x], b as [|[]|y], c as [|[]|z]; simpl; try done.
  rewrite !negb_true_iff, <- !not_true_iff_false, !Qle_bool_iff. lra.
Qed.

Global Arguments flt : simpl never.
Global Arguments fle : simpl never.
Global Arguments os_path_join : simpl never.

(** ** Properties of the Run Result Reader *)

Section ReaderFacts.
Context `{Host}.

Lemma results_loop_no_candidate w challenge_path lines :
  ∀ results results',
    no_candidate_unless_valid results →
    results_loop w challenge_path lines results = Ok results' →
    no_candidate_unless_valid results'.
Proof.
  induction lines as [|line rest IH]; intros results results' Hinv Hrun.
  - simpl in Hrun. by simplify_eq.
  - simpl in Hrun.
    destruct (index line 0) as [formula|]; [|done]. simpl in Hrun.
    destruct (index line 1 ≫= float) as [vr|]; [|done]. simpl in Hrun.
    destruct (index line 2 ≫= float) as [me|]; [|done]. simpl in Hrun.
    destruct (index line 3 ≫= float) as [mi|]; [|done]. simpl in Hrun.
    destruct (flt zero vr) eqn:Hvr.
    + destruct (get_best_cif w challenge_path formula) as [cif|]; [|by simpl in Hrun].
      simpl in Hrun. eapply IH; [|exact Hrun].
      intros g r Hg Hr. destruct (decide (formula = g)) as [->|Hne].
      * rewrite lookup_insert_eq in Hg. simplify_eq. simpl in Hr. congruence.
      * rewrite lookup_insert_ne in Hg by done. eauto.
    + simpl in Hrun. eapply IH; [|exact Hrun].
      intros g r Hg Hr. destruct (decide (formula = g)) as [->|Hne].
      * rewrite lookup_insert_eq in Hg. by simplify_eq.
      * rewrite lookup_insert_ne in Hg by done. eauto.
Qed.

Lemma read_results_csv_no_candidate w challenge_path results :
  read_results_csv w challenge_path = Ok results →
  no_candidate_unless_valid results.
Proof.
  unfold read_results_csv. intros Hrun.
  destruct (open_rt w _) as [f|]; [|done]. simpl in Hrun.
  destruct (next (csv_reader f)) as [[hd reader]|]; [|done]. simpl in Hrun.
  eapply results_loop_no_candidate; [|exact Hrun].
  intros g r Hg. by rewrite lookup_empty in Hg.
Qed.

Lemma read_props_eq w fname formula results :
  read_results_csv w fname = Ok results →
  read_props w fname formula =
    Ok (match results !! formula with
        | Some r => (validity_rate r, min_E r, mean_E r, best_cif r)
        | None => (zero, nan, nan, None)
        end).
Proof.
  intros Hrun. unfold read_props. rewrite Hrun. simpl.
  by destruct (results !! formula).
Qed.

(** C1. Whenever the summary table of a run can be read, [read_props]
    returns for every formula; a formula absent from the table gets
    validity rate zero; and a validity rate equal to zero goes with no best
    candidate, for which [matches_true] answers false whatever the
    structure matcher would do (it is not called). *)
Theorem zero_validity_no_candidate_no_match
    w fname formula results :
  read_results_csv w fname = Ok results →
  ∃ validity_rate min_E mean_E best_cif,
    read_props w fname formula = Ok (validity_rate, min_E, mean_E, best_cif) ∧
    (results !! formula = None → validity_rate = zero) ∧
    (feq validity_rate zero = true →
       best_cif = None ∧
       ∀ true_cif struct_matcher,
         matches_true true_cif best_cif struct_matcher = Ok false).
Proof.
  intros Hrun. pose proof (read_results_csv_no_candidate _ _ _ Hrun) as Hinv.
  rewrite (read_props_eq _ _ _ _ Hrun).
  destruct (results !! formula) as [r|] eqn:Hr.
  - exists (validity_rate r), (min_E r), (mean_E r), (best_cif r).
    split; [done|]. split; [done|]. intros Hz.
    assert (best_cif r = None) as Hn by eauto using feq_not_flt.
    rewrite Hn. done.
  - exists zero, nan, nan, None. done.
Qed.

(** C2 (as amended). [matches_true] contains the failures of the structure
    matcher only: when both texts parse, an [Exception] raised by [fit]
    gives false and a result of [fit] is passed on; a failure to parse the
    ground-truth text or the candidate text is raised to the caller. *)
Theorem matches_true_contains_fit_failures_only
    true_cif best_cif (struct_matcher : Structure → Structure → result bool) :
  (∀ true_struct gen_struct,
     Structure_from_str true_cif = Ok true_struct →
     Structure_from_str best_cif = Ok gen_struct →
     (∀ e, struct_matcher true_struct gen_struct = Raise e →
           is_Exception e = true →
           matches_true true_cif (Some best_cif) struct_matcher = Ok false) ∧
     (∀ is_match, struct_matcher true_struct gen_struct = Ok is_match →
           matches_true true_cif (Some best_cif) struct_matcher = Ok is_match)) ∧
  (∀ e, Structure_from_str true_cif = Raise e →
        matches_true true_cif (Some best_cif) struct_matcher = Raise e) ∧
  (∀ true_struct e,
     Structure_from_str true_cif = Ok true_struct →
     Structure_from_str best_cif = Raise e →
     matches_true true_cif (Some best_cif) struct_matcher = Raise e).
Proof.
  unfold matches_true. split; [|split].
  - intros true_struct gen_struct Ht Hg. rewrite Ht, Hg. simpl. split.
    + intros e Hfit He. by rewrite Hfit, He.
    + intros is_match Hfit. by rewrite Hfit.
  - intros e Ht. by rewrite Ht.
  - intros true_struct e Ht Hg. by rewrite Ht, Hg.
Qed.

Lemma is_valid_on_first_missing w formula_dir :
  os_path_exists w (os_path_join formula_dir ["results.csv"]) = false →
  is_valid_on_first w formula_dir = Ok false.
Proof. intros Hex. unfold is_valid_on_first. by rewrite Hex. Qed.

Lemma results_loop_no_row w challenge_path formula lines :
  ∀ results results',
    (∀ line, line ∈ lines → line !! 0%nat ≠ Some formula) →
    results_loop w challenge_path lines results = Ok results' →
    results' !! formula = results !! formula.
Proof.
  induction lines as [|line rest IH]; intros results results' Hrows Hrun.
  - simpl in Hrun. by simplify_eq.
  - simpl in Hrun.
    assert (line !! 0%nat ≠ Some formula) as Hline by (apply Hrows; by left).
    destruct (index line 0) as [key|] eqn:Hkey; [|done]. simpl in Hrun.
    assert (key ≠ formula) as Hne.
    { unfold index in Hkey. destruct (line !! 0%nat); [|done].
      simplify_eq. congruence. }
    destruct (index line 1 ≫= float) as [vr|]; [|done]. simpl in Hrun.
    destruct (index line 2 ≫= float) as [me|]; [|done]. simpl in Hrun.
    destruct (index line 3 ≫= float) as [mi|]; [|done]. simpl in Hrun.
    destruct (if flt zero vr then _ else _) as [best|]; [|done].
    simpl in Hrun.
    rewrite (IH _ _ (λ l Hl, Hrows l (list_elem_of_further _ _ _ Hl)) Hrun).
    by apply lookup_insert_ne.
Qed.

(** C3 (as amended). When the summary table of a run has been read and none
    of its data rows has the formula as its first field, [read_props] gives
    validity rate 0, NaN for both energies and no best candidate, whatever
    the other rows are; and when the candidate table of a formula does not
    exist, as when its directory is missing, [is_valid_on_first] gives
    false, whatever the summary table is.  Neither call raises. *)
Theorem missing_row_or_table_degrades w fname formula :
  (∀ text header lines results,
     open_rt w (os_path_join fname ["results.csv"]) = Ok text →
     csv_reader text = header :: lines →
     (∀ line, line ∈ lines → line !! 0%nat ≠ Some formula) →
     read_results_csv w fname = Ok results →
     read_props w fname formula = Ok (zero, nan, nan, None)) ∧
  (∀ formula_dir,
     os_path_exists w (os_path_join formula_dir ["results.csv"]) = false →
     is_valid_on_first w formula_dir = Ok false).
Proof.
  split.
  - intros text header lines results Hopen Hcsv Hrows Hrun.
    rewrite (read_props_eq _ _ _ _ Hrun).
    unfold read_results_csv in Hrun. rewrite Hopen in Hrun. simpl in Hrun.
    rewrite Hcsv in Hrun. simpl in Hrun.
    rewrite (results_loop_no_row _ _ _ _ _ _ Hrows Hrun).
    by rewrite lookup_empty.
  - apply is_valid_on_first_missing.
Qed.

(** C6. When the candidate table of a formula exists and its first data row
    carries an iteration index, [is_valid_on_first] is true exactly when
    that index is 1; when the table does not exist it is false. *)
Theorem is_valid_on_first_iff_first_iteration_1 w formula_dir :
  (∀ f header first_line more cell iteration,
     os_path_exists w (os_path_join formula_dir ["results.csv"]) = true →
     open_rt w (os_path_join formula_dir ["results.csv"]) = Ok f →
     csv_reader f = header :: first_line :: more →
     first_line !! 1%nat = Some cell →
     py_int cell = Some iteration →
     ∃ b, is_valid_on_first w formula_dir = Ok b ∧
          (b = true ↔ iteration = 1%Z)) ∧
  (os_path_exists w (os_path_join formula_dir ["results.csv"]) = false →
   is_valid_on_first w formula_dir = Ok false).
Proof.
  split; [|apply is_valid_on_first_missing].
  intros f header first_line more cell iteration Hex Hopen Hcsv Hcell Hint.
  unfold is_valid_on_first. rewrite Hex, Hopen. simpl. rewrite Hcsv. simpl.
  unfold index. rewrite Hcell. simpl. unfold int. rewrite Hint. simpl.
  case_decide as Hit.
  - exists true. done.
  - exists false. split; [done|]. split; [done|]. intros; simplify_eq.
Qed.

(** *** Selection of the best candidate *)

Lemma best_loop_foldl lines :
  ∀ cands best_score best_cif_fname,
    Forall2 candidate_row lines cands →
    best_loop lines best_score best_cif_fname =
      Ok (foldl keep_lower (best_score, best_cif_fname) cands).
Proof.
  induction lines as [|line rest IH]; intros cands bs bn Hrows.
  - by apply Forall2_nil_inv_l in Hrows as ->.
  - apply Forall2_cons_inv_l in Hrows
      as ([n s] & cands' & [Hn (cell & Hc & Hs)] & Hrest & ->).
    simpl in *. unfold index, float. rewrite Hn, Hc. simpl. rewrite Hs. simpl.
    unfold keep_lower at 2. simpl. destruct (flt s bs); by apply IH.
Qed.

Lemma keep_lower_best_so_far seen best c :
  best_so_far seen best → best_so_far (seen ++ [c])%list (keep_lower best c).
Proof.
  destruct best as [bs bn], c as [n s]. intros [Hlow Hbest].
  unfold keep_lower. simpl in *. destruct (flt s bs) eqn:Hlt.
  - split; simpl.
    + intros c' [Hc'| ->%list_elem_of_singleton]%elem_of_app.
      * destruct (flt c'.2 s) eqn:Hc's; [|done].
        rewrite <- (Hlow _ Hc'). symmetry. eauto using flt_trans.
      * apply flt_irrefl.
    + exists (length seen). split; [|split].
      * by rewrite lookup_app_r, Nat.sub_diag.
      * destruct bn as [name|].
        -- destruct Hbest as (i & _ & Hinf & _). eauto using flt_trans.
        -- by subst bs.
      * intros j c' Hj Hc'. rewrite lookup_app_l in Hc' by done.
        destruct (fle c'.2 s) eqn:Hle; [|done].
        rewrite <- (Hlow c'); [|by eapply list_elem_of_lookup_2].
        symmetry. eauto using fle_flt_trans.
  - split; simpl.
    + intros c' [Hc'| ->%list_elem_of_singleton]%elem_of_app; eauto.
    + destruct bn as [name|]; [|done].
      destruct Hbest as (i & Hi & Hinf & Hfirst). exists i.
      split; [|split; [done|]].
      * rewrite lookup_app_l; [done|]. by eapply lookup_lt_Some.
      * intros j c' Hj Hc'. eapply Hfirst; [done|].
        rewrite lookup_app_l in Hc'; [done|].
        apply lookup_lt_Some in Hi. lia.
Qed.

Lemma foldl_keep_lower_best_so_far cands :
  best_so_far cands (foldl keep_lower (inf, None) cands).
Proof.
  induction cands as [|c cands IH] using rev_ind.
  - split; [|done]. intros c Hc. by apply elem_of_nil in Hc.
  - rewrite foldl_app. simpl. by apply keep_lower_best_so_far.
Qed.

(** C4 (as amended). When every line of the candidate table has a file name
    and a score and some score is below infinity, [get_best_cif] reads the
    file named by a row [best] such that no row has a score below that of
    [best] and no earlier row has a score as low; rows with a NaN score
    are never chosen. *)
Theorem get_best_cif_lowest_score_first_wins
    w challenge_path formula f header lines cands :
  open_rt w (os_path_join challenge_path [formula; "results.csv"]) = Ok f →
  csv_reader f = header :: lines →
  Forall2 candidate_row lines cands →
  (∃ c, c ∈ cands ∧ flt c.2 inf = true) →
  ∃ i best,
    cands !! i = Some best ∧
    (∀ c, c ∈ cands → flt c.2 best.2 = false) ∧
    (∀ j c, (j < i)%nat → cands !! j = Some c → fle c.2 best.2 = false) ∧
    flt best.2 inf = true ∧
    get_best_cif w challenge_path formula =
      open_rt w (os_path_join challenge_path [formula; best.1]).
Proof.
  intros Hopen Hcsv Hrows (c0 & Hc0 & Hc0inf).
  pose proof (foldl_keep_lower_best_so_far cands) as [Hlow Hbest].
  unfold get_best_cif. rewrite Hopen. simpl. rewrite Hcsv. simpl.
  rewrite (best_loop_foldl _ _ _ _ Hrows). simpl.
  destruct (foldl keep_lower (inf, None) cands) as [bs [name|]]; simpl in *.
  - destruct Hbest as (i & Hi & Hinf & Hfirst).
    exists i, (name, bs). done.
  - subst bs. rewrite (Hlow _ Hc0) in Hc0inf. done.
Qed.

(** *** Every query rebuilds the whole summary map *)

Lemma results_loop_selects_every_valid w challenge_path lines :
  ∀ results results' line g vr,
    results_loop w challenge_path lines results = Ok results' →
    line ∈ lines → summary_row line g vr → flt zero vr = true →
    ∃ cif, get_best_cif w challenge_path g = Ok cif.
Proof.
  induction lines as [|l rest IH];
    intros results results' line g vr Hrun Hin Hrow Hvr.
  - by apply elem_of_nil in Hin.
  - simpl in Hrun.
    destruct (index l 0) as [formula|] eqn:Hf; [|done]. simpl in Hrun.
    destruct (index l 1 ≫= float) as [vr'|] eqn:Hv; [|done]. simpl in Hrun.
    destruct (index l 2 ≫= float) as [me|]; [|done]. simpl in Hrun.
    destruct (index l 3 ≫= float) as [mi|]; [|done]. simpl in Hrun.
    apply elem_of_cons in Hin as [->|Hin].
    + destruct Hrow as [Hg (cell & Hc & Hp)].
      unfold index in Hf, Hv. rewrite Hg in Hf. rewrite Hc in Hv.
      simpl in Hv. unfold float in Hv. rewrite Hp in Hv. simplify_eq.
      rewrite Hvr in Hrun.
      destruct (get_best_cif w challenge_path _) as [cif|]; [eauto|].
      by simpl in Hrun.
    + destruct (if flt zero vr' then _ else _) as [b|]; [|done].
      simpl in Hrun. eauto.
Qed.

Lemma get_best_cif_missing_table w challenge_path formula e :
  open_rt w (os_path_join challenge_path [formula; "results.csv"]) = Raise e →
  get_best_cif w challenge_path formula = Raise e.
Proof. intros Hopen. unfold get_best_cif. by rewrite Hopen. Qed.

Lemma not_Ok_raises {A} (m : result A) : (∀ a, m ≠ Ok a) → raises m.
Proof. destruct m as [a|e]; [intros Hm; by destruct (Hm a)|by exists e]. Qed.

Lemma get_best_cif_missing_file w challenge_path formula f header lines
    best_score name e :
  open_rt w (os_path_join challenge_path [formula; "results.csv"]) = Ok f →
  csv_reader f = header :: lines →
  best_loop lines inf None = Ok (best_score, Some name) →
  open_rt w (os_path_join challenge_path [formula; name]) = Raise e →
  get_best_cif w challenge_path formula = Raise e.
Proof.
  intros Hopen Hcsv Hbest Hfile. unfold get_best_cif.
  rewrite Hopen. simpl. rewrite Hcsv. simpl. rewrite Hbest. simpl. done.
Qed.

(** C10. [read_props] for a formula [f] rebuilds the whole summary map:
    for every row of the summary table, of whatever formula [g], whose
    validity rate is above zero it runs [get_best_cif] for [g].  So the
    lookup for [f] returns only if [get_best_cif] returns for each such
    [g], and it raises when [get_best_cif] raises for one of them, as it
    does when the candidate table of [g] or the candidate file selected
    from it cannot be opened. *)
Theorem read_props_selects_for_every_valid_formula
    w fname f text header lines line g vr :
  open_rt w (os_path_join fname ["results.csv"]) = Ok text →
  csv_reader text = header :: lines →
  line ∈ lines → summary_row line g vr → flt zero vr = true →
  (∀ props, read_props w fname f = Ok props →
     ∃ cif, get_best_cif w fname g = Ok cif) ∧
  (raises (get_best_cif w fname g) → raises (read_props w fname f)) ∧
  (raises (open_rt w (os_path_join fname [g; "results.csv"])) →
     raises (read_props w fname f)) ∧
  (∀ table table_header candidates best_score name,
     open_rt w (os_path_join fname [g; "results.csv"]) = Ok table →
     csv_reader table = table_header :: candidates →
     best_loop candidates inf None = Ok (best_score, Some name) →
     raises (open_rt w (os_path_join fname [g; name])) →
     raises (read_props w fname f)).
Proof.
  intros Hopen Hcsv Hin Hrow Hvr.
  assert (∀ props, read_props w fname f = Ok props →
            ∃ cif, get_best_cif w fname g = Ok cif) as Hok.
  { intros props Hprops. unfold read_props in Hprops.
    destruct (read_results_csv w fname) as [results|] eqn:Hres; [|done].
    unfold read_results_csv in Hres. rewrite Hopen in Hres. simpl in Hres.
    rewrite Hcsv in Hres. simpl in Hres.
    eauto using results_loop_selects_every_valid. }
  assert (raises (get_best_cif w fname g) → raises (read_props w fname f))
    as Hraise.
  { intros [e He]. apply not_Ok_raises. intros props Hprops.
    destruct (Hok _ Hprops) as [cif Hcif]. congruence. }
  split; [done|]. split; [done|]. split.
  - intros [e He]. apply Hraise. exists e.
    by apply get_best_cif_missing_table.
  - intros table table_header candidates best_score name Ht Hc Hb [e He].
    apply Hraise. exists e. by eapply get_best_cif_missing_file.
Qed.

End ReaderFacts.

(** ** Properties of the Aggregator/Reporter *)

Section AggregatorFacts.
Context `{Host}.

(** *** Running computations *)

Lemma bind_Ok_inv {A B} (m : M A) (f : A → M B) s s' tr b :
  (m ≫= f) s = (s', tr, Ok b) →
  ∃ s1 t1 a t2,
    m s = (s1, t1, Ok a) ∧ f a s1 = (s', t2, Ok b) ∧ tr = (t1 ++ t2)%list.
Proof.
  unfold mbind, M_bind. destruct (m s) as [[s1 t1] [a|e]]; [|done].
  destruct (f a s1) as [[s2 t2] r] eqn:Hf. intros; simplify_eq.
  by exists s1, t1, a, t2.
Qed.

Lemma bind_run_Ok {A B} (m : M A) (f : A → M B) s s1 t1 a :
  m s = (s1, t1, Ok a) →
  (m ≫= f) s =
    ((f a s1).1.1, (t1 ++ (f a s1).1.2)%list, (f a s1).2).
Proof.
  intros Hm. unfold mbind, M_bind. rewrite Hm.
  by destruct (f a s1) as [[s2 t2] r].
Qed.

Lemma bind_run_Raise {A B} (m : M A) (f : A → M B) s s1 t1 e :
  m s = (s1, t1, Raise e) → (m ≫= f) s = (s1, t1, Raise e).
Proof. intros Hm. unfold mbind, M_bind. by rewrite Hm. Qed.

Lemma for_cons {A} (body : A → M unit) x l :
  for_ (x :: l) body = (body x ;; for_ l body).
Proof. reflexivity. Qed.

Lemma for_app_Raise {A} (body : A → M unit) pre x post s s1 t1 s2 t2 e :
  for_ pre body s = (s1, t1, Ok ()) →
  body x s1 = (s2, t2, Raise e) →
  for_ (pre ++ x :: post)%list body s = (s2, (t1 ++ t2)%list, Raise e).
Proof.
  revert s t1. induction pre as [|y pre IH]; intros s t1 Hpre Hx.
  - change (for_ [] body s) with (s, @nil state, Ok ()) in Hpre.
    simplify_eq. rewrite app_nil_l, for_cons.
    by rewrite (bind_run_Raise _ _ _ _ _ _ Hx).
  - rewrite for_cons in Hpre. apply bind_Ok_inv in Hpre
      as (sy & ty & [] & t' & Hy & Hrest & ->).
    rewrite <- app_comm_cons, for_cons. rewrite (bind_run_Ok _ _ _ _ _ _ Hy).
    rewrite (IH _ _ Hrest Hx). simpl. by rewrite app_assoc.
Qed.

(** *** An invariant of every state a computation goes through *)

Section Preserves.
Variable I : state → Prop.

Lemma preserves_ret {A} (a : A) : preserves I (mret a).
Proof. intros s Hs. by split; [|constructor]. Qed.

Lemma preserves_bind {A B} (m : M A) (f : A → M B) :
  preserves I m → (∀ a, preserves I (f a)) → preserves I (m ≫= f).
Proof.
  intros Hm Hf s Hs. destruct (Hm s Hs) as [H1 Ht1].
  unfold mbind, M_bind. destruct (m s) as [[s1 t1] [a|e]]; [|done].
  simpl in *. destruct (Hf a s1 H1) as [H2 Ht2].
  destruct (f a s1) as [[s2 t2] r]. simpl in *.
  split; [done|]. by apply Forall_app.
Qed.

Lemma preserves_fmap {A B} (g : A → B) (m : M A) :
  preserves I m → preserves I (g <$> m).
Proof.
  intros Hm. apply preserves_bind; [done|]. intros a. apply preserves_ret.
Qed.

Lemma preserves_reading {A} (f : world → result A) : preserves I (reading f).
Proof. intros s Hs. by split; [|constructor]. Qed.

Lemma preserves_lift {A} (r : result A) : preserves I (lift r).
Proof. intros s Hs. by split; [|constructor]. Qed.

Lemma preserves_when b m : preserves I m → preserves I (when b m).
Proof. destruct b; [done|]. intros _. apply preserves_ret. Qed.

Lemma preserves_for {A} (l : list A) (body : A → M unit) :
  (∀ x, preserves I (body x)) → preserves I (for_ l body).
Proof.
  intros Hbody. induction l as [|x l IH]; simpl.
  - apply preserves_ret.
  - apply preserves_bind; [apply Hbody|]. by intros _.
Qed.

Lemma preserves_assign f :
  (∀ s s', I s → f s = Ok s' → I s') → preserves I (assign f).
Proof.
  intros Hf s Hs. unfold assign. destruct (f s) as [s'|e] eqn:Hfs; simpl.
  - split; [|constructor; [|constructor]]; eauto.
  - by split; [|constructor].
Qed.

Lemma preserves_sys op :
  (∀ s w, I s → I (State w (validity_count s) (valid_on_first_count s)
                     (match_true_count_all s) (match_true_count_unseen s)
                     (rows s))) →
  preserves I (sys op).
Proof.
  intros Hw s Hs. unfold sys. destruct (op (fs s)) as [w r]. simpl.
  split; [|constructor; [|constructor]]; eauto.
Qed.

End Preserves.

(** *** The match counters *)

Lemma count_match_preserves i (b : bool) :
  preserves unseen_le_all
    (incr_match_true_count_all i ;;
     when b (incr_match_true_count_unseen i)).
Proof.
  intros s (u0 & u1 & a0 & a1 & Hu & Ha & H0 & H1).
  unfold mbind, M_bind, incr_match_true_count_all, incr_match_true_count_unseen,
    when, assign, incr, index.
  rewrite Ha, Hu.
  destruct i as [|[|i]], b; simpl;
    repeat first [split | constructor | done];
    unfold unseen_le_all; simpl;
    try (eexists _, _, _, _; repeat split; try done; lia).
Qed.

Lemma unseen_le_all_same s s' :
  match_true_count_unseen s' = match_true_count_unseen s →
  match_true_count_all s' = match_true_count_all s →
  unseen_le_all s → unseen_le_all s'.
Proof. unfold unseen_le_all. intros -> ->. done. Qed.

Ltac same_counters :=
  first
    [ apply preserves_sys; intros; by eapply unseen_le_all_same
    | apply preserves_assign; intros ? ? ? Hassign;
      unfold incr, index in Hassign;
      try (destruct (_ !! _) in Hassign);
      simpl in Hassign; simplify_eq;
      by eapply unseen_le_all_same ].

Ltac step_preserves :=
  first
    [ apply preserves_ret
    | apply preserves_reading
    | apply preserves_lift
    | apply count_match_preserves
    | apply preserves_when
    | apply preserves_fmap
    | apply preserves_bind; [|intros]
    | same_counters ].

Lemma write_file_preserves root_dir formula content fname :
  preserves unseen_le_all (write_file root_dir formula content fname).
Proof. unfold write_file. same_counters. Qed.

Lemma write_cif_and_envs_preserves root_dir formula cif name d a m :
  preserves unseen_le_all (write_cif_and_envs root_dir formula cif name d a m).
Proof.
  unfold write_cif_and_envs.
  repeat first [apply write_file_preserves | step_preserves].
Qed.

Lemma variant_preserves i suffix name label training formula true_cif E seen :
  preserves unseen_le_all
    (variant i suffix name label training formula true_cif E seen).
Proof.
  unfold variant. apply preserves_bind; [step_preserves|].
  intros [[[validity_rate min_E] mean_E] best_cif].
  unfold incr_validity_count, incr_valid_on_first_count, rows_append, incr.
  repeat first [apply write_cif_and_envs_preserves | step_preserves].
Qed.

Lemma formula_body_preserves energies challenge_set training formula :
  preserves unseen_le_all (formula_body energies challenge_set training formula).
Proof.
  unfold formula_body.
  repeat first [apply write_cif_and_envs_preserves | apply variant_preserves
               | step_preserves].
Qed.

(** C5. In every state that the loop over the formulas and the writing of
    the table go through, and in the state they end in, each of the two
    slots of [match_true_count_unseen] is at most the same slot of
    [match_true_count_all]: a slot of the unseen counter is incremented
    only right after the same slot of the all counter. *)
Theorem unseen_matches_at_most_all_matches
    alignn_energies challenge_set training_set_formulas s :
  Forall unseen_le_all
    (main_loop alignn_energies challenge_set training_set_formulas s).1.2 ∧
  unseen_le_all
    (main_loop alignn_energies challenge_set training_set_formulas s).1.1.
Proof.
  unfold main_loop.
  set (s0 := State (fs s) [0; 0]%Z [0; 0]%Z [0; 0]%Z [0; 0]%Z []).
  assert (unseen_le_all s0) as Hs0.
  { exists 0%Z, 0%Z, 0%Z, 0%Z. done. }
  match goal with
  | |- context [ (?init ;; ?rest) s ] =>
      assert (preserves unseen_le_all rest) as Hrest;
      [|rewrite (bind_run_Ok init _ s s0 [s0] () eq_refl)]
  end.
  { apply preserves_bind.
    - apply preserves_for. intros formula. apply formula_body_preserves.
    - intros []. apply preserves_bind.
      + intros s1 Hs1. by split; [|constructor].
      + intros rows. same_counters. }
  destruct (Hrest s0 Hs0) as [Hend Htrace]. simpl.
  split; [|done]. by constructor.
Qed.

(** *** The rows of the consolidated table *)

Lemma appends_ret {A} (a : A) : appends_keys (mret a) [].
Proof. intros s s' tr a' Hrun. unfold mret, M_ret in Hrun. simplify_eq.
  by rewrite app_nil_r. Qed.

Lemma appends_reading {A} (f : world → result A) : appends_keys (reading f) [].
Proof. intros s s' tr a Hrun. unfold reading in Hrun. simplify_eq.
  by rewrite app_nil_r. Qed.

Lemma appends_lift {A} (r : result A) : appends_keys (lift r) [].
Proof. intros s s' tr a Hrun. unfold lift in Hrun. simplify_eq.
  by rewrite app_nil_r. Qed.

Lemma appends_sys op : appends_keys (sys op) [].
Proof.
  intros s s' tr a Hrun. unfold sys in Hrun. destruct (op (fs s)) as [w r].
  simplify_eq. simpl. by rewrite app_nil_r.
Qed.

Lemma appends_assign f :
  (∀ s s', f s = Ok s' → rows s' = rows s) → appends_keys (assign f) [].
Proof.
  intros Hf s s' tr a Hrun. unfold assign in Hrun.
  destruct (f s) as [s1|e] eqn:Hfs; simplify_eq.
  by rewrite (Hf _ _ Hfs), app_nil_r.
Qed.

Lemma appends_rows_append row k0 k3 :
  row !! 0%nat = k0 → row !! 3%nat = k3 →
  appends_keys (rows_append row) [(k0, k3)].
Proof.
  intros <- <- s s' tr a Hrun. unfold rows_append, assign in Hrun.
  simplify_eq. simpl. unfold key_columns. by rewrite fmap_app.
Qed.

Lemma appends_bind {A B} (m : M A) (f : A → M B) k1 k2 :
  appends_keys m k1 → (∀ a, appends_keys (f a) k2) →
  appends_keys (m ≫= f) (k1 ++ k2)%list.
Proof.
  intros Hm Hf s s' tr b Hrun.
  apply bind_Ok_inv in Hrun as (s1 & t1 & a & t2 & Hm1 & Hf1 & ->).
  rewrite (Hf _ _ _ _ _ Hf1), (Hm _ _ _ _ Hm1). by rewrite app_assoc.
Qed.

Lemma appends_fmap {A B} (g : A → B) (m : M A) k :
  appends_keys m k → appends_keys (g <$> m) k.
Proof.
  intros Hm. rewrite <- (app_nil_r k). apply appends_bind; [done|].
  intros a. apply appends_ret.
Qed.

Lemma appends_when b m : appends_keys m [] → appends_keys (when b m) [].
Proof. destruct b; [done|]. intros _. apply appends_ret. Qed.

Lemma appends_for {A} (l : list A) (body : A → M unit) g :
  (∀ x, appends_keys (body x) (g x)) →
  appends_keys (for_ l body) (concat (g <$> l)).
Proof.
  intros Hbody. induction l as [|x l IH].
  - apply appends_ret.
  - rewrite for_cons. simpl. apply appends_bind; [apply Hbody|]. by intros _.
Qed.

Ltac same_rows :=
  apply appends_assign; intros ? ? Hassign;
  unfold incr, index in Hassign;
  try (destruct (_ !! _) in Hassign);
  simpl in Hassign; by simplify_eq.

Ltac step_appends :=
  first
    [ apply appends_ret
    | apply appends_reading
    | apply appends_lift
    | apply appends_sys
    | eapply appends_rows_append; simpl; reflexivity
    | apply appends_when
    | apply appends_fmap
    | same_rows
    | eapply appends_bind; [|intros] ].

Lemma write_cif_and_envs_appends root_dir formula cif name d a m :
  appends_keys (write_cif_and_envs root_dir formula cif name d a m) [].
Proof.
  unfold write_cif_and_envs, write_file.
  change (@nil (option string * option string)) with
    (@nil (option string * option string) ++ ([] ++ []))%list.
  repeat step_appends.
Qed.

Lemma count_match_appends i b :
  appends_keys
    (incr_match_true_count_all i ;;
     when b (incr_match_true_count_unseen i)) [].
Proof.
  change (@nil (option string * option string)) with
    (@nil (option string * option string) ++ [])%list.
  unfold incr_match_true_count_all, incr_match_true_count_unseen.
  repeat step_appends.
Qed.

Lemma variant_appends i suffix name label training formula true_cif E seen :
  appends_keys (variant i suffix name label training formula true_cif E seen)
    [(Some formula, Some label)].
Proof.
  assert (∃ ks, appends_keys
            (variant i suffix name label training formula true_cif E seen) ks
          ∧ ks = [(Some formula, Some label)]) as (ks & Hks & ->); [|done].
  eexists. split.
  - unfold variant. eapply appends_bind; [step_appends|].
    intros [[[validity_rate min_E] mean_E] best_cif].
    unfold incr_validity_count, incr_valid_on_first_count.
    repeat first [apply write_cif_and_envs_appends | apply count_match_appends
                 | step_appends].
  - reflexivity.
Qed.

Lemma formula_body_appends energies challenge_set training formula :
  appends_keys (formula_body energies challenge_set training formula)
    [(Some formula, Some "no"); (Some formula, Some "yes")].
Proof.
  assert (∃ ks, appends_keys
            (formula_body energies challenge_set training formula) ks
          ∧ ks = [(Some formula, Some "no"); (Some formula, Some "yes")])
    as (ks & Hks & ->); [|done].
  eexists. split.
  - unfold formula_body.
    repeat first [apply write_cif_and_envs_appends | apply variant_appends
                 | step_appends].
  - reflexivity.
Qed.

Global Instance string_le_total : Total string_le.
Proof. intros s1 s2. apply String.leb_total. Qed.

Lemma sorted_Sorted {V} (d : gmap string V) : Sorted string_le (sorted d).
Proof. apply (Sorted_merge_sort string_le). Qed.

Lemma sorted_Permutation {V} (d : gmap string V) :
  sorted d ≡ₚ elements (dom d).
Proof. apply (merge_sort_Permutation string_le). Qed.

Lemma elem_of_sorted {V} (d : gmap string V) key :
  key ∈ sorted d ↔ is_Some (d !! key).
Proof. by rewrite sorted_Permutation, elem_of_elements, elem_of_dom. Qed.

Lemma main_loop_run alignn_energies challenge_set training_set_formulas s :
  main_loop alignn_energies challenge_set training_set_formulas s =
    (let '(s1, t1, r) :=
       loop_and_table alignn_energies challenge_set training_set_formulas (start s)
     in (s1, start s :: t1, r)).
Proof.
  unfold main_loop. fold (loop_and_table alignn_energies challenge_set
                            training_set_formulas).
  rewrite (bind_run_Ok _ _ s (start s) [start s] () eq_refl).
  by destruct (loop_and_table _ _ _ (start s)) as [[s1 t1] r].
Qed.

Lemma completed_run_rows
    alignn_energies challenge_set training_set_formulas s s' tr :
  main_loop alignn_energies challenge_set training_set_formulas s
    = (s', tr, Ok ()) →
  key_columns (rows s') =
    concat ((λ formula, [(Some formula, Some "no"); (Some formula, Some "yes")])
              <$> sorted challenge_set) ∧
  Sorted string_le (sorted challenge_set) ∧
  NoDup (sorted challenge_set) ∧
  (∀ formula, formula ∈ sorted challenge_set ↔ formula ∈ dom challenge_set) ∧
  ∃ w, open_wt (os_path_join out_dir ["results.csv"])
         (csv_writer (header :: rows s')) w = (fs s', Ok ()).
Proof.
  intros Hrun. rewrite main_loop_run in Hrun.
  destruct (loop_and_table _ _ _ (start s)) as [[s1' t1] r] eqn:Hrest.
  simplify_eq. unfold loop_and_table in Hrest.
  apply bind_Ok_inv in Hrest as (s1 & t & [] & t2 & Hfor & Hrest & ->).
  apply bind_Ok_inv in Hrest as (s2 & t3 & rows2 & t4 & Hget & Hwrite & ->).
  simplify_eq. unfold sys in Hwrite.
  destruct (open_wt _ _ (fs s2)) as [w r] eqn:Hopen. simplify_eq. simpl.
  split; [|split; [|split; [|split]]].
  - eapply (appends_for _ _ _ (formula_body_appends _ _ _)) in Hfor.
    by rewrite Hfor.
  - apply sorted_Sorted.
  - rewrite sorted_Permutation. apply NoDup_elements.
  - intros formula. by rewrite sorted_Permutation, elem_of_elements.
  - by exists (fs s2).
Qed.

(** *** Two runs *)

Section TwoRuns.
Variable R : world → world → Prop.
Hypothesis reads : same_reads R.
Hypothesis writes : kept_by_writes R.

Lemma corresponds_ret {A} (a : A) : corresponds R (mret a).
Proof.
  intros s1 s2 s1' s2' t1 t2 a1 a2 Hs H1 H2.
  unfold mret, M_ret in *. by simplify_eq.
Qed.

Lemma corresponds_bind {A B} (m : M A) (f : A → M B) :
  corresponds R m → (∀ a, corresponds R (f a)) → corresponds R (m ≫= f).
Proof.
  intros Hm Hf s1 s2 s1' s2' t1 t2 b1 b2 Hs H1 H2.
  apply bind_Ok_inv in H1 as (u1 & ? & a1 & ? & Hm1 & Hf1 & _).
  apply bind_Ok_inv in H2 as (u2 & ? & a2 & ? & Hm2 & Hf2 & _).
  destruct (Hm _ _ _ _ _ _ _ _ Hs Hm1 Hm2) as [<- Hu].
  exact (Hf _ _ _ _ _ _ _ _ _ Hu Hf1 Hf2).
Qed.

Lemma corresponds_fmap {A B} (g : A → B) (m : M A) :
  corresponds R m → corresponds R (g <$> m).
Proof.
  intros Hm. apply corresponds_bind; [done|]. intros a.
  apply corresponds_ret.
Qed.

Lemma corresponds_lift {A} (r : result A) : corresponds R (lift r).
Proof.
  intros s1 s2 s1' s2' t1 t2 a1 a2 Hs H1 H2. unfold lift in *.
  by simplify_eq.
Qed.

Lemma corresponds_reading {A} (f : world → result A) :
  (∀ w1 w2, R w1 w2 → f w1 = f w2) → corresponds R (reading f).
Proof.
  intros Hf s1 s2 s1' s2' t1 t2 a1 a2 Hs H1 H2. unfold reading in *.
  injection H1 as -> <- Hf1. injection H2 as -> <- Hf2.
  pose proof Hs as [HR _]. rewrite (Hf _ _ HR) in Hf1.
  split; [congruence|done].
Qed.

Lemma corresponds_sys op :
  (∀ w1 w2 w1' w2', R w1 w2 →
     op w1 = (w1', Ok ()) → op w2 = (w2', Ok ()) → R w1' w2') →
  corresponds R (sys op).
Proof.
  intros Hop s1 s2 s1' s2' t1 t2 [] [] Hs H1 H2. unfold sys in *.
  destruct (op (fs s1)) as [w1' r1] eqn:Hop1.
  destruct (op (fs s2)) as [w2' r2] eqn:Hop2. simplify_eq.
  destruct Hs as (HR & ? & ? & ? & ? & ?).
  split; [done|]. repeat split; simpl; eauto.
Qed.

Lemma corresponds_assign f :
  (∀ s1 s2 s1' s2', agree R s1 s2 →
     f s1 = Ok s1' → f s2 = Ok s2' → agree R s1' s2') →
  corresponds R (assign f).
Proof.
  intros Hf s1 s2 s1' s2' t1 t2 [] [] Hs H1 H2. unfold assign in *.
  destruct (f s1) as [u1|] eqn:Hf1; [|done].
  destruct (f s2) as [u2|] eqn:Hf2; [|done]. simplify_eq. eauto.
Qed.

Lemma corresponds_when b m : corresponds R m → corresponds R (when b m).
Proof. destruct b; [done|]. intros _. apply corresponds_ret. Qed.

Lemma corresponds_for {A} (l : list A) (body : A → M unit) :
  (∀ x, corresponds R (body x)) → corresponds R (for_ l body).
Proof.
  intros Hbody. induction l as [|x l IH].
  - apply corresponds_ret.
  - rewrite for_cons. apply corresponds_bind; [apply Hbody|]. by intros _.
Qed.

Ltac same_assignment :=
  apply corresponds_assign;
  intros ? ? ? ? (? & Hvc & Hvf & Hma & Hmu & Hrows) Hassign1 Hassign2;
  unfold incr, index in Hassign1, Hassign2;
  rewrite <- ?Hvc, <- ?Hvf, <- ?Hma, <- ?Hmu, <- ?Hrows in Hassign2;
  try (destruct (_ !! _) in Hassign1, Hassign2);
  simpl in Hassign1, Hassign2; simplify_eq;
  repeat split; simpl; congruence.

Ltac step_corresponds :=
  first
    [ apply corresponds_ret
    | apply corresponds_lift
    | apply corresponds_when
    | apply corresponds_fmap
    | apply corresponds_sys; intros ? ? ? ? HR;
      apply (writes _ _ _ _ HR)
    | same_assignment
    | apply corresponds_bind; [|intros] ].

Lemma write_cif_and_envs_corresponds root_dir formula cif name d a m :
  corresponds R (write_cif_and_envs root_dir formula cif name d a m).
Proof. unfold write_cif_and_envs, write_file. repeat step_corresponds. Qed.

Lemma variant_corresponds i suffix name label training formula true_cif E seen :
  suffix ∈ ["_challenge"; "_challenge_sg"] →
  corresponds R (variant i suffix name label training formula true_cif E seen).
Proof.
  intros Hsuffix. unfold variant. apply corresponds_bind.
  { apply corresponds_reading. intros w1 w2 HR.
    apply (reads _ _ _ formula HR Hsuffix). }
  intros [[[validity_rate min_E] mean_E] best_cif].
  apply corresponds_bind.
  { apply corresponds_fmap, corresponds_reading. intros w1 w2 HR.
    apply (reads _ _ _ formula HR Hsuffix). }
  intros valid_on_first.
  unfold incr_validity_count, incr_valid_on_first_count,
    incr_match_true_count_all, incr_match_true_count_unseen, rows_append.
  repeat first [apply write_cif_and_envs_corresponds | step_corresponds].
Qed.

Lemma formula_body_corresponds energies challenge_set training formula :
  corresponds R (formula_body energies challenge_set training formula).
Proof.
  unfold formula_body.
  repeat first [apply write_cif_and_envs_corresponds
               | apply variant_corresponds; set_solver
               | step_corresponds].
Qed.

Lemma loop_and_table_corresponds energies challenge_set training :
  corresponds R (loop_and_table energies challenge_set training).
Proof.
  unfold loop_and_table. apply corresponds_bind.
  { apply corresponds_for. intros formula. apply formula_body_corresponds. }
  intros []. apply corresponds_bind.
  { intros s1 s2 s1' s2' t1 t2 a1 a2 Hs H1 H2. simplify_eq.
    split; [apply Hs|done]. }
  intros rows. step_corresponds.
Qed.

End TwoRuns.

(** C7. The table of a run that completes has, for each formula of the
    challenge set in lexicographic order (every formula once), the row
    without space group followed by the row with space group, and what is
    written to [results.csv] is [csv.writer]'s text of the header and
    these rows.  A second run on the same energies, challenge set and
    provenance that completes has the same rows, and so writes the same
    text, whenever the two file systems are related by some [R] under
    which the Run Result Reader returns the same and which is kept by the
    writes of the run; equal file systems are so related. *)
Theorem consolidated_table_is_reproducible
    alignn_energies challenge_set training_set_formulas s s' tr :
  main_loop alignn_energies challenge_set training_set_formulas s
    = (s', tr, Ok ()) →
  key_columns (rows s') =
    concat ((λ formula, [(Some formula, Some "no"); (Some formula, Some "yes")])
              <$> sorted challenge_set) ∧
  Sorted string_le (sorted challenge_set) ∧
  NoDup (sorted challenge_set) ∧
  (∀ formula, formula ∈ sorted challenge_set ↔ formula ∈ dom challenge_set) ∧
  (∃ w, open_wt (os_path_join out_dir ["results.csv"])
          (csv_writer (header :: rows s')) w = (fs s', Ok ())) ∧
  (∀ (R : world → world → Prop) s2 s2' tr2,
     same_reads R → kept_by_writes R →
     R (fs s) (fs s2) →
     main_loop alignn_energies challenge_set training_set_formulas s2
       = (s2', tr2, Ok ()) →
     rows s2' = rows s' ∧
     csv_writer (header :: rows s2') = csv_writer (header :: rows s')) ∧
  same_reads eq ∧ kept_by_writes eq.
Proof.
  intros Hrun.
  destruct (completed_run_rows _ _ _ _ _ _ Hrun) as (Hk & Hs & Hn & Hd & Hw).
  repeat (split; [done|]). split; [|split].
  - intros R s2 s2' tr2 Hreads Hwrites HR Hrun2.
    assert (rows s2' = rows s') as Hrows; [|by rewrite Hrows].
    rewrite main_loop_run in Hrun, Hrun2.
    destruct (loop_and_table _ _ _ (start s)) as [[u1 t1] r1] eqn:H1.
    destruct (loop_and_table _ _ _ (start s2)) as [[u2 t2] r2] eqn:H2.
    simplify_eq.
    assert (agree R (start s) (start s2)) as Hstart by done.
    destruct (loop_and_table_corresponds R Hreads Hwrites
                _ _ _ _ _ _ _ _ _ _ _ Hstart H1 H2)
      as [_ (_ & _ & _ & _ & _ & Hrows)].
    done.
  - intros w1 w2 suffix formula -> _. done.
  - intros w1 w2 w1' w2' ->. split; intros; congruence.
Qed.

(** C8. When the loop reaches a formula of the challenge set, the earlier
    formulas done and the directory of this one created, and the formula
    has no entry in the energy table, the run ends with [KeyError] for
    that formula; and the lookup of a formula that has an entry returns
    it. *)
Theorem missing_energy_aborts_with_KeyError
    alignn_energies challenge_set training_set_formulas :
  (∀ s formula before after s1 t1 w,
     sorted challenge_set = (before ++ formula :: after)%list →
     alignn_energies !! formula = None →
     for_ before
       (formula_body alignn_energies challenge_set training_set_formulas)
       (start s) = (s1, t1, Ok ()) →
     os_makedirs (os_path_join out_dir [formula]) (fs s1) = (w, Ok ()) →
     (main_loop alignn_energies challenge_set training_set_formulas s).2
       = Raise (KeyError formula)) ∧
  (∀ formula energy,
     alignn_energies !! formula = Some energy →
     getitem alignn_energies formula = Ok energy).
Proof.
  split.
  - intros s formula before after s1 t1 w Hsorted Hnone Hbefore Hmk.
    assert (is_Some (challenge_set !! formula)) as [true_cif Hcif].
    { apply elem_of_sorted. rewrite Hsorted. set_solver. }
    set (s2 := State w (validity_count s1) (valid_on_first_count s1)
                 (match_true_count_all s1) (match_true_count_unseen s1)
                 (rows s1)).
    assert (formula_body alignn_energies challenge_set training_set_formulas
              formula s1 = (s2, [s2], Raise (KeyError formula))) as Hbody.
    { unfold formula_body.
      assert (sys (os_makedirs (os_path_join out_dir [formula])) s1
                = (s2, [s2], Ok ())) as Hsys.
      { unfold sys. by rewrite Hmk. }
      rewrite (bind_run_Ok _ _ _ _ _ _ Hsys).
      unfold getitem. rewrite Hcif, Hnone. reflexivity. }
    rewrite main_loop_run. unfold loop_and_table. rewrite Hsorted.
    rewrite (bind_run_Raise _ _ _ _ _ _
               (for_app_Raise _ _ _ _ _ _ _ _ _ _ Hbefore Hbody)).
    reflexivity.
  - intros formula energy Hsome. unfold getitem. by rewrite Hsome.
Qed.

End AggregatorFacts.

(** ** Runs on the small host *)

#[local] Existing Instance Demo.host.

Example join_components : os_path_join "../out" ["run"; "NaCl"] = "../out/run/NaCl".
Proof. reflexivity. Qed.
Example join_after_separator :
  os_path_join "../out/analysis/" ["NaCl"; "true.cif"] = "../out/analysis/NaCl/true.cif".
Proof. reflexivity. Qed.
Example join_absolute : os_path_join "../out" ["/tmp"; "x"] = "/tmp/x".
Proof. reflexivity. Qed.
Example join_empty : os_path_join "" ["x"] = "x".
Proof. reflexivity. Qed.
Example split_path : split "/" "set/NaCl/" = ["set"; "NaCl"; ""].
Proof. reflexivity. Qed.
Example endswith_suffix : endswith "NaCl_pymatgen.cif" "pymatgen.cif" = true.
Proof. reflexivity. Qed.

Example demo_float_1 : Demo.parse_float "3.0" = Some (FFin (30 # 10)).
Proof. reflexivity. Qed.
Example demo_render_1 : Demo.render 5 (FFin (- 1 # 8)) = "-0.12500".
Proof. vm_compute. reflexivity. Qed.
Example demo_render_2 : Demo.render 2 (FFin (1 # 8)) = "0.12".
Proof. vm_compute. reflexivity. Qed.
Example demo_rows_1 :
  Demo.rows_of "a,b
c,d
" = [["a"; "b"]; ["c"; "d"]].
Proof. reflexivity. Qed.

Example run_read_props_NaCl :
  read_props Runs.complete Runs.no_sg "NaCl"
  = Ok (FFin (10 # 10), FFin (- 40 # 10), FFin (- 35 # 10), Some "data_NaCl").
Proof. vm_compute. reflexivity. Qed.

Example run_read_props_Li2O :
  read_props Runs.complete Runs.no_sg "Li2O" = Ok (FFin (0 # 10), FNaN, FNaN, None).
Proof. vm_compute. reflexivity. Qed.

Example run_valid_on_first :
  is_valid_on_first Runs.complete (Runs.no_sg +:+ "/NaCl") = Ok false.
Proof. vm_compute. reflexivity. Qed.

Example run_rows :
  rows (main_loop Runs.energy_of_NaCl Runs.one_formula ∅
          (Runs.before_loop Runs.complete)).1.1
  = [["NaCl"; "no"; "-3.90000"; "no"; "-3.50000"; "-4.00000"; "1.00"; "no"; "yes"];
     ["NaCl"; "no"; "-3.90000"; "yes"; "nan"; "nan"; "0.00"; "no"; "no"]].
Proof. vm_compute. reflexivity. Qed.

(** C1 on the run above, for Li2O, whose validity rate is 0.0. *)
Lemma zero_validity_Li2O :
  ∃ validity_rate min_E mean_E best_cif,
    read_props (H := Demo.host) Runs.complete Runs.no_sg "Li2O"
      = Ok (validity_rate, min_E, mean_E, best_cif) ∧
    (Runs.summary_of Runs.complete !! "Li2O" = None → validity_rate = zero) ∧
    (feq validity_rate zero = true →
       best_cif = None ∧
       ∀ true_cif struct_matcher,
         matches_true (H := Demo.host) true_cif best_cif struct_matcher = Ok false).
Proof.
  apply (zero_validity_no_candidate_no_match (H := Demo.host)
           Runs.complete Runs.no_sg "Li2O" (Runs.summary_of Runs.complete)).
  vm_compute. reflexivity.
Defined.

(** C2 as stated fails: a ground-truth text that does not parse makes
    [matches_true] raise the parser's exception instead of returning false. *)
Lemma parse_failure_is_raised :
  Structure_from_str (Host := Demo.host) "not a structure" = Raise ValueError ∧
  matches_true (H := Demo.host) "not a structure" (Some "data_NaCl") StructureMatcher_fit
    = Raise ValueError.
Proof. split; reflexivity. Qed.

(** C2 as amended, on texts that parse and a matcher that fails, and on a
    candidate text that does not parse. *)
Lemma fit_failure_is_contained :
  matches_true (H := Demo.host) "data_NaCl" (Some "data_c1") (λ _ _, Raise (LibraryError "fit"))
    = Ok false ∧
  matches_true (H := Demo.host) "data_NaCl" (Some "c1") StructureMatcher_fit = Raise ValueError.
Proof.
  split.
  - apply (matches_true_contains_fit_failures_only (H := Demo.host)
           "data_NaCl" "data_c1" (λ _ _, Raise (LibraryError "fit")))
      with (true_struct := "data_NaCl") (gen_struct := "data_c1")
           (e := LibraryError "fit"); reflexivity.
  - apply (matches_true_contains_fit_failures_only (H := Demo.host)
           "data_NaCl" "c1" StructureMatcher_fit)
      with (true_struct := "data_NaCl"); reflexivity.
Defined.

(** C3 as stated fails: with a summary row of validity rate 1.0 and no
    candidate table, [read_props] raises; and with a candidate table that
    has no data row, [is_valid_on_first] raises. *)
Lemma missing_table_aborts :
  read_props (H := Demo.host) Runs.table_missing Runs.no_sg "NaCl"
    = Raise (FileNotFoundError "../out/cif_model_35_challenge/NaCl/results.csv") ∧
  os_path_exists (Host := Demo.host) Runs.table_empty (Runs.no_sg +:+ "/NaCl/results.csv") = true ∧
  is_valid_on_first (H := Demo.host) Runs.table_empty (Runs.no_sg +:+ "/NaCl") = Raise StopIteration.
Proof. repeat split; vm_compute; reflexivity. Qed.

(** C3 as amended, for a formula with no summary row and no directory. *)
Lemma missing_row_K2O :
  read_props (H := Demo.host) Runs.complete Runs.no_sg "K2O" = Ok (zero, nan, nan, None) ∧
  is_valid_on_first (H := Demo.host) Runs.complete (Runs.no_sg +:+ "/K2O") = Ok false.
Proof.
  destruct (missing_row_or_table_degrades (H := Demo.host)
           Runs.complete Runs.no_sg "K2O") as [Hprops Hfirst].
  split.
  - apply (Hprops
             (Runs.text ["formula,validity_rate,mean_E,min_E";
                         "NaCl,1.0,-3.5,-4.0"; "Li2O,0.0,nan,nan"])
             ["formula"; "validity_rate"; "mean_E"; "min_E"]
             [["NaCl"; "1.0"; "-3.5"; "-4.0"]; ["Li2O"; "0.0"; "nan"; "nan"]]
             (Runs.summary_of Runs.complete)).
    + vm_compute. reflexivity.
    + vm_compute. reflexivity.
    + intros line Hin.
      repeat (apply elem_of_cons in Hin as [->|Hin]; [discriminate|]).
      by apply elem_of_nil in Hin.
    + vm_compute. reflexivity.
  - apply Hfirst. vm_compute. reflexivity.
Defined.

(** C4 as stated fails: a table whose one row has the score [inf] has a
    row with the lowest score, yet no candidate is selected and the call
    raises. *)
Lemma lone_infinite_score_not_selected :
  csv_reader (Host := Demo.host)
    (Runs.text ["cif,iteration,score"; "c1.cif,1,inf"])
    = [["cif"; "iteration"; "score"]; ["c1.cif"; "1"; "inf"]] ∧
  py_float (Host := Demo.host) "inf" = Some inf ∧
  get_best_cif (H := Demo.host) Runs.score_inf Runs.no_sg "NaCl" = Raise TypeError.
Proof. repeat split; vm_compute; reflexivity. Qed.

(** C4 as amended, on two candidates with the same lowest score: the first
    one is read. *)
Lemma tie_first_wins :
  ∃ i best,
    [("c1.cif", FFin (30 # 10)); ("c2.cif", FFin (30 # 10))] !! i = Some best ∧
    (∀ c, c ∈ [("c1.cif", FFin (30 # 10)); ("c2.cif", FFin (30 # 10))] →
          flt c.2 best.2 = false) ∧
    (∀ j c, (j < i)%nat →
          [("c1.cif", FFin (30 # 10)); ("c2.cif", FFin (30 # 10))] !! j = Some c →
          fle c.2 best.2 = false) ∧
    flt best.2 inf = true ∧
    get_best_cif (H := Demo.host) Runs.tie Runs.no_sg "NaCl"
      = open_rt (Host := Demo.host) Runs.tie (os_path_join Runs.no_sg ["NaCl"; best.1]).
Proof.
  apply (get_best_cif_lowest_score_first_wins (H := Demo.host)
           Runs.tie Runs.no_sg "NaCl"
           (Runs.text ["cif,iteration,score"; "c1.cif,1,3.0"; "c2.cif,2,3.0"])
           ["cif"; "iteration"; "score"]
           [["c1.cif"; "1"; "3.0"]; ["c2.cif"; "2"; "3.0"]]).
  - vm_compute. reflexivity.
  - vm_compute. reflexivity.
  - repeat constructor; simpl; by eexists.
  - exists ("c1.cif", FFin (30 # 10)). split; [set_solver|reflexivity].
Defined.

Example run_tie : get_best_cif (H := Demo.host) Runs.tie Runs.no_sg "NaCl" = Ok "data_c1".
Proof. vm_compute. reflexivity. Qed.

(** C6 on the candidate table of NaCl, whose first data row has iteration
    index 2, and on a formula without candidate table. *)
Lemma first_iteration_NaCl :
  (∃ b, is_valid_on_first (H := Demo.host) Runs.complete (Runs.no_sg +:+ "/NaCl") = Ok b ∧
        (b = true ↔ 2%Z = 1%Z)) ∧
  is_valid_on_first (H := Demo.host) Runs.complete (Runs.no_sg +:+ "/Li2O") = Ok false.
Proof.
  split.
  - apply (is_valid_on_first_iff_first_iteration_1 (H := Demo.host)
           Runs.complete (Runs.no_sg +:+ "/NaCl"))
      with (f := Runs.text ["cif,iteration,score"; "c1.cif,2,5.0"; "c2.cif,1,3.0"])
           (header := ["cif"; "iteration"; "score"])
           (first_line := ["c1.cif"; "2"; "5.0"])
           (more := [["c2.cif"; "1"; "3.0"]])
           (cell := "2"); vm_compute; reflexivity.
  - apply (is_valid_on_first_iff_first_iteration_1 (H := Demo.host)
           Runs.complete (Runs.no_sg +:+ "/Li2O")).
    vm_compute. reflexivity.
Defined.

(** C10 on the run without the candidate table of NaCl: the lookup for
    Li2O, whose own row has validity rate 0.0, raises. *)
Lemma lookup_for_Li2O_needs_table_of_NaCl :
  raises (read_props (H := Demo.host) Runs.table_missing Runs.no_sg "Li2O").
Proof.
  destruct (read_props_selects_for_every_valid_formula (H := Demo.host)
              Runs.table_missing Runs.no_sg "Li2O"
              (Runs.text ["formula,validity_rate,mean_E,min_E";
                          "NaCl,1.0,-3.5,-4.0"; "Li2O,0.0,nan,nan"])
              ["formula"; "validity_rate"; "mean_E"; "min_E"]
              [["NaCl"; "1.0"; "-3.5"; "-4.0"]; ["Li2O"; "0.0"; "nan"; "nan"]]
              ["NaCl"; "1.0"; "-3.5"; "-4.0"] "NaCl" (FFin (10 # 10)))
    as (_ & _ & Htable & _).
  - vm_compute. reflexivity.
  - vm_compute. reflexivity.
  - set_solver.
  - split; [reflexivity|]. by exists "1.0".
  - reflexivity.
  - apply Htable.
    exists (FileNotFoundError "../out/cif_model_35_challenge/NaCl/results.csv").
    vm_compute. reflexivity.
Defined.

Example run_lookup_for_Li2O :
  read_props (H := Demo.host) Runs.table_missing Runs.no_sg "Li2O"
  = Raise (FileNotFoundError "../out/cif_model_35_challenge/NaCl/results.csv").
Proof. vm_compute. reflexivity. Qed.

(** C7 on a run over the challenge set with the one formula NaCl, and a
    second run from the same file system. *)
Lemma table_of_one_formula_is_reproducible :
  key_columns (rows Runs.one_run.1.1)
    = [(Some "NaCl", Some "no"); (Some "NaCl", Some "yes")] ∧
  ∀ s2 s2' tr2,
    Runs.complete = fs s2 →
    main_loop (H := Demo.host) Runs.energy_of_NaCl Runs.one_formula ∅ s2
      = (s2', tr2, Ok ()) →
    csv_writer (header :: rows s2')
      = csv_writer (header :: rows Runs.one_run.1.1).
Proof.
  destruct (consolidated_table_is_reproducible (H := Demo.host)
              Runs.energy_of_NaCl Runs.one_formula ∅
              (Runs.before_loop Runs.complete)
              Runs.one_run.1.1 Runs.one_run.1.2)
    as (Hkeys & _ & _ & _ & _ & Hsecond & Hreads & Hwrites).
  - vm_compute. reflexivity.
  - split; [exact Hkeys|].
    intros s2 s2' tr2 Hfs Hrun2.
    by destruct (Hsecond eq s2 s2' tr2 Hreads Hwrites Hfs Hrun2).
Defined.

Example run_sorted : sorted Runs.two_formulas = ["Li2O"; "NaCl"].
Proof. vm_compute. reflexivity. Qed.

(** C8 on a challenge set with Li2O and NaCl and an energy table with
    Li2O only: the run is over with [KeyError] when it comes to NaCl. *)
Lemma missing_energy_of_NaCl :
  (main_loop (H := Demo.host) Runs.energy_of_Li2O Runs.two_formulas ∅
     (Runs.before_loop Runs.complete)).2 = Raise (KeyError "NaCl") ∧
  getitem Runs.energy_of_Li2O "Li2O" = Ok (FFin (- 6 # 1)).
Proof.
  pose (body := formula_body (H := Demo.host)
                  Runs.energy_of_Li2O Runs.two_formulas ∅).
  pose (done := for_ ["Li2O"] body (start (Runs.before_loop Runs.complete))).
  destruct (missing_energy_aborts_with_KeyError (H := Demo.host)
              Runs.energy_of_Li2O Runs.two_formulas ∅) as [Habort Hfound].
  split.
  - apply (Habort (Runs.before_loop Runs.complete) "NaCl" ["Li2O"] []
             done.1.1 done.1.2
             (os_makedirs (Host := Demo.host)
                (os_path_join out_dir ["NaCl"]) (fs done.1.1)).1);
      vm_compute; reflexivity.
  - apply Hfound. vm_compute. reflexivity.
Defined.

(** C9. The second field of the header row is spelt [seen_in_trainig]: the
    table written by a run over an empty challenge set is this one line. *)
Theorem results_csv_header_as_written :
  header !! 1%nat = Some "seen_in_trainig" ∧
  Demo.assoc "../out/cif_model_35_ChallengeSet-v1_analysis/results.csv"
    (Demo.files
       (fs (main_loop (H := Demo.host) ∅ ∅ ∅
              (Runs.before_loop (Demo.disk []))).1.1))
  = Some ("formula,seen_in_trainig,true_E,includes_space_group,"
          +:+ "mean_E,min_E,pct_valid,valid_on_first,matches_true"
          +:+ String "013" (String "010" "")).
Proof. split; vm_compute; reflexivity. Qed.

(** The whole script on the small host. *)
Example run_read_challenge_set :
  read_challenge_set (H := Demo.host) Runs.whole challenge_set_path
  = Ok ({[ "NaCl" := "data_NaCl" ]}, {[ "NaCl" ]}).
Proof. vm_compute. reflexivity. Qed.

Example run_main :
  (main (H := Demo.host) (Runs.before_loop Runs.whole)).2 = Ok () ∧
  Demo.assoc "../out/cif_model_35_ChallengeSet-v1_analysis/results.csv"
    (Demo.files (fs (main (H := Demo.host) (Runs.before_loop Runs.whole)).1.1))
  = Some (Runs.text
            ["formula,seen_in_trainig,true_E,includes_space_group,"
               +:+ "mean_E,min_E,pct_valid,valid_on_first,matches_true" +:+ String "013" "";
             "NaCl,yes,-3.90000,no,-3.50000,-4.00000,1.00,no,yes" +:+ String "013" "";
             "NaCl,yes,-3.90000,yes,nan,nan,0.00,no,no" +:+ String "013" ""]).
Proof. split; vm_compute; reflexivity. Qed.

(** ** Further properties of the readers *)

Lemma last_for_app {V} key (l1 l2 : list (string * V)) :
  last_for key (l1 ++ l2)%list =
    match last_for key l2 with
    | Some v => Some v
    | None => last_for key l1
    end.
Proof.
  induction l1 as [|[k v] l1 IH]; simpl.
  - by destruct (last_for key l2).
  - rewrite IH. by destruct (last_for key l2).
Qed.

Lemma last_for_None {V} key (l : list (string * V)) :
  key ∉ l.*1 → last_for key l = None.
Proof.
  induction l as [|[k v] l IH]; [done|]. simpl.
  intros [Hk Hl]%not_elem_of_cons. rewrite (IH Hl). by case_decide.
Qed.

Lemma last_for_last {V} key v (before after : list (string * V)) :
  key ∉ after.*1 → last_for key (before ++ (key, v) :: after)%list = Some v.
Proof.
  intros Hafter. rewrite last_for_app. simpl.
  rewrite (last_for_None _ _ Hafter). by case_decide.
Qed.

Section ReaderFacts2.
Context `{Host}.

Lemma energies_loop_last_for lines :
  ∀ rows energies,
    Forall2 energy_row lines rows →
    ∃ energies',
      energies_loop lines energies = Ok energies' ∧
      ∀ formula, energies' !! formula =
        match last_for formula rows with
        | Some e => Some e
        | None => energies !! formula
        end.
Proof.
  induction lines as [|line rest IH]; intros rows energies Hrows.
  - apply Forall2_nil_inv_l in Hrows as ->. by exists energies.
  - apply Forall2_cons_inv_l in Hrows
      as ([k e] & rows' & [Hk (cell & Hc & He)] & Hrest & ->).
    simpl in *. unfold index, float. rewrite Hk, Hc. simpl. rewrite He. simpl.
    destruct (IH _ (<[k:=e]> energies) Hrest) as (energies' & Hrun & Hlook).
    exists energies'. split; [done|]. intros formula. rewrite Hlook.
    destruct (last_for formula rows'); [done|].
    case_decide as Hkf.
    + subst. by rewrite lookup_insert_eq.
    + by rewrite lookup_insert_ne.
Qed.

(** X1. When every data row of the energy table has a formula and an
    energy, [read_alignn_energies] returns a map in which a formula has the
    energy of its last row and a formula without row has no entry. *)
Theorem read_alignn_energies_last_row_wins w fname f header lines rows :
  open_rt w fname = Ok f →
  csv_reader f = header :: lines →
  Forall2 energy_row lines rows →
  ∃ energies,
    read_alignn_energies w fname = Ok energies ∧
    (∀ formula, formula ∉ rows.*1 → energies !! formula = None) ∧
    (∀ before formula energy after,
       rows = (before ++ (formula, energy) :: after)%list →
       formula ∉ after.*1 →
       energies !! formula = Some energy).
Proof.
  intros Hopen Hcsv Hrows.
  destruct (energies_loop_last_for _ _ ∅ Hrows) as (energies & Hrun & Hlook).
  exists energies. split; [|split].
  - unfold read_alignn_energies. rewrite Hopen. simpl. by rewrite Hcsv.
  - intros formula Hno. by rewrite Hlook, (last_for_None _ _ Hno).
  - intros before formula energy after -> Hafter.
    by rewrite Hlook, (last_for_last _ _ _ _ Hafter).
Qed.

Lemma energies_loop_rows lines :
  ∀ energies energies',
    energies_loop lines energies = Ok energies' →
    Forall (λ line, ∃ c, energy_row line c) lines.
Proof.
  induction lines as [|line rest IH]; intros energies energies' Hrun.
  - constructor.
  - simpl in Hrun. unfold index, float in Hrun.
    destruct (line !! 0%nat) as [k|] eqn:Hk; [|done]. simpl in Hrun.
    destruct (line !! 1%nat) as [cell|] eqn:Hc; [|done]. simpl in Hrun.
    destruct (py_float cell) as [e|] eqn:He; [|done]. simpl in Hrun.
    constructor; [|by eapply IH].
    exists (k, e). split; [done|]. by exists cell.
Qed.

Lemma energies_loop_exn lines :
  ∀ energies e,
    energies_loop lines energies = Raise e → e = IndexError ∨ e = ValueError.
Proof.
  induction lines as [|line rest IH]; intros energies e Hrun; [done|].
  simpl in Hrun. unfold index, float in Hrun.
  destruct (line !! 0%nat) as [k|]; [|simpl in Hrun; left; congruence].
  simpl in Hrun.
  destruct (line !! 1%nat) as [cell|]; [|simpl in Hrun; left; congruence].
  simpl in Hrun.
  destruct (py_float cell) as [x|]; [|simpl in Hrun; right; congruence].
  simpl in Hrun. eauto.
Qed.

(** X2. [read_alignn_energies] gives no map at all when the table cannot be
    opened (the error of [open] is raised), when it has no header row
    ([StopIteration]), or when some data row lacks a formula, lacks an
    energy ([IndexError]) or has an energy that is no float
    ([ValueError]), whatever the other rows are. *)
Theorem read_alignn_energies_failures w fname :
  (∀ e, open_rt w fname = Raise e → read_alignn_energies w fname = Raise e) ∧
  (∀ f, open_rt w fname = Ok f → csv_reader f = [] →
        read_alignn_energies w fname = Raise StopIteration) ∧
  (∀ f header lines line,
     open_rt w fname = Ok f → csv_reader f = header :: lines →
     line ∈ lines → (∀ c, ¬ energy_row line c) →
     read_alignn_energies w fname = Raise IndexError ∨
     read_alignn_energies w fname = Raise ValueError).
Proof.
  unfold read_alignn_energies. split; [|split].
  - intros e Hopen. by rewrite Hopen.
  - intros f Hopen Hcsv. rewrite Hopen. simpl. by rewrite Hcsv.
  - intros f header lines line Hopen Hcsv Hin Hbad.
    rewrite Hopen. simpl. rewrite Hcsv. simpl.
    destruct (energies_loop lines ∅) as [energies|e] eqn:Hrun.
    + apply energies_loop_rows in Hrun.
      rewrite Forall_forall in Hrun. destruct (Hrun _ Hin) as [c Hc].
      by destruct (Hbad c).
    + destruct (energies_loop_exn _ _ _ Hrun) as [-> | ->]; eauto.
Qed.

(** The three numbers of an entry of the summary map. *)
Lemma results_loop_last_for w challenge_path lines :
  ∀ rows results results',
    Forall2 summary_fields lines rows →
    results_loop w challenge_path lines results = Ok results' →
    ∀ formula,
      (λ r, (validity_rate r, mean_E r, min_E r)) <$> results' !! formula =
        match last_for formula rows with
        | Some t => Some t
        | None => (λ r, (validity_rate r, mean_E r, min_E r))
                    <$> results !! formula
        end.
Proof.
  induction lines as [|line rest IH]; intros rows results results' Hrows Hrun.
  - apply Forall2_nil_inv_l in Hrows as ->. simpl in Hrun. by simplify_eq.
  - apply Forall2_cons_inv_l in Hrows
      as ([k [[v me] mi]] & rows' & Hline & Hrest & ->).
    destruct Hline as (Hk & (c1 & Hc1 & Hv) & (c2 & Hc2 & Hme) & (c3 & Hc3 & Hmi)).
    simpl in *. unfold index, float in Hrun.
    rewrite Hk, Hc1, Hc2, Hc3 in Hrun. simpl in Hrun.
    rewrite Hv, Hme, Hmi in Hrun. simpl in Hrun.
    destruct (if flt zero v then _ else _) as [b|]; [|done]. simpl in Hrun.
    intros formula. rewrite (IH _ _ _ Hrest Hrun formula).
    destruct (last_for formula rows'); [done|].
    case_decide as Hkf.
    + subst. by rewrite lookup_insert_eq.
    + by rewrite lookup_insert_ne.
Qed.

(** X3. The validity rate and the two energies that [read_props] returns
    for a formula are those of the last row of the summary table for that
    formula; for a formula without row they are 0, NaN and NaN, with no
    best candidate. *)
Theorem read_props_last_row_wins
    w fname text header lines rows formula
    validity_rate min_E mean_E best_cif :
  open_rt w (os_path_join fname ["results.csv"]) = Ok text →
  csv_reader text = header :: lines →
  Forall2 summary_fields lines rows →
  read_props w fname formula = Ok (validity_rate, min_E, mean_E, best_cif) →
  (formula ∉ rows.*1 →
     validity_rate = zero ∧ min_E = nan ∧ mean_E = nan ∧ best_cif = None) ∧
  (∀ before v mean min after,
     rows = (before ++ (formula, (v, mean, min)) :: after)%list →
     formula ∉ after.*1 →
     validity_rate = v ∧ mean_E = mean ∧ min_E = min).
Proof.
  intros Hopen Hcsv Hrows Hprops. unfold read_props in Hprops.
  destruct (read_results_csv w fname) as [results|] eqn:Hres; [|done].
  simpl in Hprops. unfold read_results_csv in Hres.
  rewrite Hopen in Hres. simpl in Hres. rewrite Hcsv in Hres. simpl in Hres.
  pose proof (results_loop_last_for _ _ _ _ _ _ Hrows Hres formula) as Hlook.
  rewrite lookup_empty in Hlook. simpl in Hlook. split.
  - intros Hno. rewrite (last_for_None _ _ Hno) in Hlook.
    destruct (results !! formula); [done|]. by simplify_eq.
  - intros before v mean min after -> Hafter.
    rewrite (last_for_last _ _ _ _ Hafter) in Hlook.
    destruct (results !! formula) as [r|]; [|done].
    simpl in Hlook. by simplify_eq.
Qed.

Lemma results_loop_best_cif_as_selected w challenge_path lines :
  ∀ results results',
    best_cif_as_selected w challenge_path results →
    results_loop w challenge_path lines results = Ok results' →
    best_cif_as_selected w challenge_path results'.
Proof.
  induction lines as [|line rest IH]; intros results results' Hinv Hrun.
  - simpl in Hrun. by simplify_eq.
  - simpl in Hrun.
    destruct (index line 0) as [formula|]; [|done]. simpl in Hrun.
    destruct (index line 1 ≫= float) as [vr|]; [|done]. simpl in Hrun.
    destruct (index line 2 ≫= float) as [me|]; [|done]. simpl in Hrun.
    destruct (index line 3 ≫= float) as [mi|]; [|done]. simpl in Hrun.
    destruct (flt zero vr) eqn:Hvr.
    + destruct (get_best_cif w challenge_path formula) as [cif|] eqn:Hcif;
        [|by simpl in Hrun].
      simpl in Hrun. eapply IH; [|exact Hrun].
      intros g r Hg. destruct (decide (formula = g)) as [->|Hne].
      * rewrite lookup_insert_eq in Hg. simplify_eq. simpl. rewrite Hvr. eauto.
      * rewrite lookup_insert_ne in Hg by done. by apply Hinv.
    + simpl in Hrun. eapply IH; [|exact Hrun].
      intros g r Hg. destruct (decide (formula = g)) as [->|Hne].
      * rewrite lookup_insert_eq in Hg. simplify_eq. simpl. by rewrite Hvr.
      * rewrite lookup_insert_ne in Hg by done. by apply Hinv.
Qed.

(** X4. Whenever [read_props] returns, its best candidate is the text that
    [get_best_cif] returns for that formula if the validity rate is above
    zero, and none if it is not (zero, negative or NaN). *)
Theorem read_props_best_cif_as_selected
    w fname formula validity_rate min_E mean_E best_cif :
  read_props w fname formula = Ok (validity_rate, min_E, mean_E, best_cif) →
  if flt zero validity_rate
  then ∃ cif, get_best_cif w fname formula = Ok cif ∧ best_cif = Some cif
  else best_cif = None.
Proof.
  intros Hprops. unfold read_props in Hprops.
  destruct (read_results_csv w fname) as [results|] eqn:Hres; [|done].
  simpl in Hprops.
  assert (best_cif_as_selected w fname results) as Hinv.
  { unfold read_results_csv in Hres.
    destruct (open_rt w _) as [f|]; [|done]. simpl in Hres.
    destruct (next (csv_reader f)) as [[hd reader]|]; [|done]. simpl in Hres.
    eapply results_loop_best_cif_as_selected; [|exact Hres].
    intros g r Hg. by rewrite lookup_empty in Hg. }
  destruct (results !! formula) as [r|] eqn:Hr; simplify_eq.
  - by apply Hinv.
  - by rewrite flt_irrefl.
Qed.

(** X5. [get_best_cif] never returns a candidate from a table without a
    score below infinity: without header row it raises [StopIteration],
    and with data rows that all have a score of [inf] or NaN, or with no
    data row at all, it raises [TypeError]. *)
Theorem get_best_cif_nothing_to_select w challenge_path formula f :
  open_rt w (os_path_join challenge_path [formula; "results.csv"]) = Ok f →
  (csv_reader f = [] →
   get_best_cif w challenge_path formula = Raise StopIteration) ∧
  (∀ header lines cands,
     csv_reader f = header :: lines →
     Forall2 candidate_row lines cands →
     (∀ c, c ∈ cands → flt c.2 inf = false) →
     get_best_cif w challenge_path formula = Raise TypeError).
Proof.
  intros Hopen. unfold get_best_cif. rewrite Hopen. simpl. split.
  - intros Hcsv. by rewrite Hcsv.
  - intros header lines cands Hcsv Hrows Hnone. rewrite Hcsv. simpl.
    rewrite (best_loop_foldl _ _ _ _ Hrows). simpl.
    pose proof (foldl_keep_lower_best_so_far cands) as [_ Hbest].
    destruct (foldl keep_lower (inf, None) cands) as [bs [name|]]; [|done].
    simpl in Hbest. destruct Hbest as (i & Hi & Hinf & _).
    apply list_elem_of_lookup_2 in Hi. apply Hnone in Hi. simpl in Hi.
    congruence.
Qed.

(** X6. On a candidate table that exists, [is_valid_on_first] raises what
    [open] raises when the table cannot be read, [StopIteration] when the
    table has no data row, [IndexError] when the first data row has no
    second field and [ValueError] when that field is no integer. *)
Theorem is_valid_on_first_failures w formula_dir :
  os_path_exists w (os_path_join formula_dir ["results.csv"]) = true →
  (∀ e, open_rt w (os_path_join formula_dir ["results.csv"]) = Raise e →
        is_valid_on_first w formula_dir = Raise e) ∧
  (∀ f, open_rt w (os_path_join formula_dir ["results.csv"]) = Ok f →
     ((length (csv_reader f) < 2)%nat →
      is_valid_on_first w formula_dir = Raise StopIteration) ∧
     (∀ header first_line more,
        csv_reader f = header :: first_line :: more →
        (first_line !! 1%nat = None →
         is_valid_on_first w formula_dir = Raise IndexError) ∧
        (∀ cell, first_line !! 1%nat = Some cell → py_int cell = None →
         is_valid_on_first w formula_dir = Raise ValueError))).
Proof.
  intros Hex. unfold is_valid_on_first. rewrite Hex. simpl. split.
  - intros e Hopen. by rewrite Hopen.
  - intros f Hopen. rewrite Hopen. simpl. split.
    + intros Hlen. destruct (csv_reader f) as [|header [|first_line more]];
        [done|done|]. simpl in Hlen. lia.
    + intros header first_line more Hcsv. rewrite Hcsv. simpl.
      unfold index, int. split.
      * intros Hnone. by rewrite Hnone.
      * intros cell Hcell Hint. rewrite Hcell. simpl. by rewrite Hint.
Qed.

(** X7. [matches_true] returns true only if there is a candidate, both
    texts parse and the structure matcher itself returned true: a failure
    of the matcher is never counted as a match. *)
Theorem matches_true_only_when_fit_says_so
    true_cif best_cif (struct_matcher : Structure → Structure → result bool) :
  matches_true true_cif best_cif struct_matcher = Ok true →
  ∃ candidate true_struct gen_struct,
    best_cif = Some candidate ∧
    Structure_from_str true_cif = Ok true_struct ∧
    Structure_from_str candidate = Ok gen_struct ∧
    struct_matcher true_struct gen_struct = Ok true.
Proof.
  unfold matches_true. intros Hmatch.
  destruct best_cif as [candidate|]; [|done].
  destruct (Structure_from_str true_cif) as [ts|] eqn:Ht; [|done].
  simpl in Hmatch.
  destruct (Structure_from_str candidate) as [gs|] eqn:Hg; [|done].
  simpl in Hmatch.
  destruct (struct_matcher ts gs) as [b|e] eqn:Hfit.
  - simplify_eq. by exists candidate, ts, gs.
  - by destruct (is_Exception e).
Qed.

End ReaderFacts2.

Lemma last_for_elem_of {V} key v (l : list (string * V)) :
  last_for key l = Some v → (key, v) ∈ l.
Proof.
  induction l as [|[k x] l IH]; [done|]. simpl.
  destruct (last_for key l) as [v'|].
  - intros [= ->]. right. by apply IH.
  - case_decide as Hk; [|done]. intros [= ->]. subst. by left.
Qed.

Section ReaderFacts3.
Context `{Host}.

Lemma results_loop_returns w challenge_path lines :
  ∀ rows results,
    Forall2 summary_fields lines rows →
    (∀ formula fields, (formula, fields) ∈ rows →
       flt zero fields.1.1 = true →
       ∃ cif, get_best_cif w challenge_path formula = Ok cif) →
    ∃ results', results_loop w challenge_path lines results = Ok results'.
Proof.
  induction lines as [|line rest IH]; intros rows results Hrows Hsel.
  - by exists results.
  - apply Forall2_cons_inv_l in Hrows
      as ([k [[v me] mi]] & rows' & Hline & Hrest & ->).
    destruct Hline as (Hk & (c1 & Hc1 & Hv) & (c2 & Hc2 & Hme) & (c3 & Hc3 & Hmi)).
    simpl in *. unfold index, float.
    rewrite Hk, Hc1, Hc2, Hc3. simpl. rewrite Hv, Hme, Hmi. simpl.
    assert (∀ formula fields, (formula, fields) ∈ rows' →
              flt zero fields.1.1 = true →
              ∃ cif, get_best_cif w challenge_path formula = Ok cif) as Hsel'.
    { intros formula fields Hin. apply Hsel. by right. }
    destruct (flt zero v) eqn:Hvalid.
    + destruct (Hsel k (v, me, mi)) as [cif Hcif]; [by left|done|].
      rewrite Hcif. simpl. by apply (IH rows').
    + simpl. by apply (IH rows').
Qed.

(** X18. [read_props] returns, for every formula, whenever the summary
    table can be read, its data rows have a formula and three floats, and
    [get_best_cif] returns for the formula of every row whose validity
    rate is above zero. *)
Theorem read_props_returns_when_selection_does
    w fname text header lines rows formula :
  open_rt w (os_path_join fname ["results.csv"]) = Ok text →
  csv_reader text = header :: lines →
  Forall2 summary_fields lines rows →
  (∀ g fields, (g, fields) ∈ rows → flt zero fields.1.1 = true →
     ∃ cif, get_best_cif w fname g = Ok cif) →
  ∃ props, read_props w fname formula = Ok props.
Proof.
  intros Hopen Hcsv Hrows Hsel.
  destruct (results_loop_returns _ _ _ _ ∅ Hrows Hsel) as [results Hrun].
  unfold read_props, read_results_csv. rewrite Hopen. simpl.
  rewrite Hcsv. simpl. rewrite Hrun. simpl. eauto.
Qed.

(** X19. When no row of the summary table has a validity rate above zero,
    [read_props] returns for every formula with no best candidate,
    whatever candidate tables and candidate files there are or are not:
    none of them is read. *)
Theorem read_props_without_valid_rows_reads_no_candidates
    w fname text header lines rows formula :
  open_rt w (os_path_join fname ["results.csv"]) = Ok text →
  csv_reader text = header :: lines →
  Forall2 summary_fields lines rows →
  (∀ g fields, (g, fields) ∈ rows → flt zero fields.1.1 = false) →
  ∃ validity_rate min_E mean_E,
    read_props w fname formula = Ok (validity_rate, min_E, mean_E, None) ∧
    ∀ w',
      open_rt w' (os_path_join fname ["results.csv"]) = Ok text →
      read_props w' fname formula = Ok (validity_rate, min_E, mean_E, None).
Proof.
  intros Hopen Hcsv Hrows Hnone.
  assert (∀ w0, open_rt w0 (os_path_join fname ["results.csv"]) = Ok text →
            ∃ results,
              read_results_csv w0 fname = Ok results ∧
              ∀ g, match results !! g with
                   | Some r => last_for g rows
                                 = Some (validity_rate r, mean_E r, min_E r) ∧
                               best_cif r = None
                   | None => last_for g rows = None
                   end) as Hany.
  { intros w0 Hopen0.
    destruct (results_loop_returns w0 fname _ _ ∅ Hrows) as [results Hrun].
    { intros g fields Hin Hvalid. rewrite (Hnone _ _ Hin) in Hvalid. done. }
    exists results. split.
    { unfold read_results_csv. rewrite Hopen0. simpl. by rewrite Hcsv. }
    intros g.
    pose proof (results_loop_last_for _ _ _ _ _ _ Hrows Hrun g) as Hlook.
    rewrite lookup_empty in Hlook. simpl in Hlook.
    destruct (results !! g) as [r|] eqn:Hr; simpl in Hlook.
    - destruct (last_for g rows) as [t|] eqn:Hlast; [|done].
      simplify_eq. split; [done|].
      assert (best_cif_as_selected w0 fname results) as Hsel.
      { eapply results_loop_best_cif_as_selected; [|exact Hrun].
        intros g' r' Hg'. by rewrite lookup_empty in Hg'. }
      specialize (Hsel _ _ Hr).
      apply last_for_elem_of in Hlast. apply Hnone in Hlast. simpl in Hlast.
      by rewrite Hlast in Hsel.
    - by destruct (last_for g rows). }
  assert (∀ w0, open_rt w0 (os_path_join fname ["results.csv"]) = Ok text →
            read_props w0 fname formula =
              Ok match last_for formula rows with
                 | Some (v, me, mi) => (v, mi, me, None)
                 | None => (zero, nan, nan, None)
                 end) as Hprops.
  { intros w0 Hopen0. destruct (Hany w0 Hopen0) as (results & Hres & Hall).
    unfold read_props. rewrite Hres. simpl. specialize (Hall formula).
    destruct (results !! formula) as [r|].
    - destruct Hall as [-> ->]. done.
    - by rewrite Hall. }
  destruct (last_for formula rows) as [[[v me] mi]|].
  - exists v, mi, me. split; [by apply Hprops|]. intros w'. apply Hprops.
  - exists zero, nan, nan. split; [by apply Hprops|]. intros w'. apply Hprops.
Qed.

End ReaderFacts3.

(** ** Properties of the Dataset Loader *)

Lemma split_not_nil sep s : split sep s ≠ [].
Proof.
  destruct s as [|c s]; [done|]. simpl. case_decide; [done|].
  by destruct (split sep s).
Qed.

Lemma split_no_sep sep s x : x ∈ split sep s → contains sep x = false.
Proof.
  revert x. induction s as [|c s IH]; intros x Hx; simpl in Hx.
  - by apply list_elem_of_singleton in Hx as ->.
  - case_decide as Hc.
    + apply elem_of_cons in Hx as [->|Hx]; [done|]. by apply IH.
    + destruct (split sep s) as [|y ys] eqn:Hs.
      * apply list_elem_of_singleton in Hx as ->. simpl.
        by case_decide.
      * apply elem_of_cons in Hx as [->|Hx].
        -- simpl. case_decide; [done|]. apply IH. by left.
        -- apply IH. by right.
Qed.

Lemma structure_formula_no_sep filename formula :
  structure_formula filename = Some formula → contains "/" formula = false.
Proof.
  unfold structure_formula. intros Hf.
  destruct (reverse (split "/" filename) !! 0%nat) as [l|]; [|done].
  repeat case_decide; try done.
  destruct (split "/" filename !! 1%nat) as [x|] eqn:Hx; [|done].
  destruct (split "/" filename !! 2%nat) as [y|]; [|done].
  destruct (endswith y "pymatgen.cif"); [|done]. simplify_eq.
  eapply split_no_sep, list_elem_of_lookup_2, Hx.
Qed.

Section LoaderFacts.
Context `{Host}.

(** One pass of the loop over the archive entries. *)
Lemma filelist_loop_cons w challenge_set_path filename rest cs tr :
  filelist_loop w challenge_set_path (filename :: rest) cs tr =
    if decide (is_metadata filename) then
      content ← zip_read w challenge_set_path filename;
      '(_, reader) ← next (csv_reader content);
      tr' ← metadata_loop reader tr;
      filelist_loop w challenge_set_path rest cs tr'
    else
      match structure_formula filename with
      | Some formula =>
          content ← zip_read w challenge_set_path filename;
          filelist_loop w challenge_set_path rest (<[formula := content]> cs) tr
      | None => filelist_loop w challenge_set_path rest cs tr
      end.
Proof.
  unfold is_metadata, structure_formula. simpl. unfold index.
  destruct (reverse (split "/" filename) !! 0%nat) as [l|] eqn:Hl; simpl.
  - case_decide as Hmeta.
    + subst l. rewrite decide_True by done. done.
    + rewrite (decide_False (P := Some l = Some "metadata.csv")) by naive_solver.
      rewrite ?(decide_False (P := l = "metadata.csv")) by done.
      case_decide as Hshort; [done|].
      destruct (split "/" filename !! 1%nat) as [formula|] eqn:H1; simpl.
      * destruct (split "/" filename !! 2%nat) as [fname|] eqn:H2; simpl;
          [by destruct (endswith fname "pymatgen.cif")|].
        apply lookup_ge_None in H2. lia.
      * apply lookup_ge_None in H1. lia.
  - apply lookup_ge_None in Hl. rewrite length_reverse in Hl.
    pose proof (split_not_nil "/" filename).
    destruct (split "/" filename); [done|]. simpl in Hl. lia.
Qed.

Lemma filelist_loop_app w challenge_set_path before after :
  ∀ cs tr result,
    filelist_loop w challenge_set_path (before ++ after)%list cs tr = Ok result →
    ∃ cs1 tr1,
      filelist_loop w challenge_set_path before cs tr = Ok (cs1, tr1) ∧
      filelist_loop w challenge_set_path after cs1 tr1 = Ok result.
Proof.
  induction before as [|filename before IH]; intros cs tr result Hrun.
  - by exists cs, tr.
  - rewrite <- app_comm_cons, filelist_loop_cons in Hrun.
    rewrite filelist_loop_cons. case_decide.
    + destruct (zip_read _ _ _) as [content|]; [|done]. simpl in *.
      destruct (next (csv_reader content)) as [[hd reader]|]; [|done].
      simpl in *. destruct (metadata_loop reader tr) as [tr'|]; [|done].
      simpl in *. eauto.
    + destruct (structure_formula filename) as [formula|]; [|eauto].
      destruct (zip_read _ _ _) as [content|]; [|done]. simpl in *. eauto.
Qed.

Lemma filelist_loop_no_entry w challenge_set_path filelist formula :
  ∀ cs tr cs' tr',
    filelist_loop w challenge_set_path filelist cs tr = Ok (cs', tr') →
    (∀ filename, filename ∈ filelist →
                 structure_formula filename ≠ Some formula) →
    cs' !! formula = cs !! formula.
Proof.
  induction filelist as [|filename rest IH]; intros cs tr cs' tr' Hrun Hno.
  - simpl in Hrun. by simplify_eq.
  - rewrite filelist_loop_cons in Hrun.
    assert (∀ fn, fn ∈ rest → structure_formula fn ≠ Some formula) as Hrest.
    { intros fn Hfn. apply Hno. by right. }
    assert (structure_formula filename ≠ Some formula) as Hhere.
    { apply Hno. by left. }
    case_decide.
    + destruct (zip_read _ _ _) as [content|]; [|done]. simpl in *.
      destruct (next (csv_reader content)) as [[hd reader]|]; [|done].
      simpl in *. destruct (metadata_loop reader tr) as [tr1|]; [|done].
      simpl in *. eauto.
    + destruct (structure_formula filename) as [g|]; [|eauto].
      destruct (zip_read _ _ _) as [content|]; [|done]. simpl in *.
      rewrite (IH _ _ _ _ Hrun Hrest). apply lookup_insert_ne. congruence.
Qed.

Lemma filelist_loop_sound w challenge_set_path filelist formula content :
  ∀ cs tr cs' tr',
    filelist_loop w challenge_set_path filelist cs tr = Ok (cs', tr') →
    cs' !! formula = Some content →
    cs !! formula = Some content ∨
    ∃ filename, filename ∈ filelist ∧
      structure_formula filename = Some formula ∧
      zip_read w challenge_set_path filename = Ok content.
Proof.
  induction filelist as [|filename rest IH]; intros cs tr cs' tr' Hrun Hlook.
  - simpl in Hrun. simplify_eq. by left.
  - rewrite filelist_loop_cons in Hrun. case_decide.
    + destruct (zip_read _ _ _) as [c|]; [|done]. simpl in *.
      destruct (next (csv_reader c)) as [[hd reader]|]; [|done].
      simpl in *. destruct (metadata_loop reader tr) as [tr1|]; [|done].
      simpl in *.
      destruct (IH _ _ _ _ Hrun Hlook) as [?|(fn & ? & ? & ?)]; [by left|].
      right. exists fn. split; [by right|done].
    + destruct (structure_formula filename) as [g|] eqn:Hg.
      * destruct (zip_read _ _ _) as [c|] eqn:Hc; [|done]. simpl in *.
        destruct (IH _ _ _ _ Hrun Hlook) as [Hins|(fn & ? & ? & ?)].
        -- destruct (decide (g = formula)) as [->|Hne].
           ++ rewrite lookup_insert_eq in Hins. simplify_eq.
              right. exists filename. split; [by left|done].
           ++ rewrite lookup_insert_ne in Hins by done. by left.
        -- right. exists fn. split; [by right|done].
      * destruct (IH _ _ _ _ Hrun Hlook) as [?|(fn & ? & ? & ?)]; [by left|].
        right. exists fn. split; [by right|done].
Qed.

(** X8. When [read_challenge_set] returns, every structure text of the
    challenge set is the text of an archive entry that is a structure file
    of that formula, and of the structure files of one formula the last
    one in the archive gives the text (the earlier ones are overwritten). *)
Theorem read_challenge_set_last_structure_file_wins
    w challenge_set_path filelist challenge_set training_set_formulas :
  zip_filelist w challenge_set_path = Ok filelist →
  read_challenge_set w challenge_set_path
    = Ok (challenge_set, training_set_formulas) →
  (∀ formula content,
     challenge_set !! formula = Some content →
     ∃ filename, filename ∈ filelist ∧
       structure_formula filename = Some formula ∧
       zip_read w challenge_set_path filename = Ok content) ∧
  (∀ formula,
     (∀ filename, filename ∈ filelist →
                  structure_formula filename ≠ Some formula) →
     challenge_set !! formula = None) ∧
  (∀ before filename after formula,
     filelist = (before ++ filename :: after)%list →
     structure_formula filename = Some formula →
     (∀ later, later ∈ after → structure_formula later ≠ Some formula) →
     ∃ content, zip_read w challenge_set_path filename = Ok content ∧
                challenge_set !! formula = Some content).
Proof.
  intros Hlist Hrun. unfold read_challenge_set in Hrun.
  rewrite Hlist in Hrun. simpl in Hrun. split; [|split].
  - intros formula content Hlook.
    destruct (filelist_loop_sound _ _ _ _ _ _ _ _ _ Hrun Hlook) as [Hempty|?];
      [|done].
    by rewrite lookup_empty in Hempty.
  - intros formula Hno.
    by rewrite (filelist_loop_no_entry _ _ _ _ _ _ _ _ Hrun Hno), lookup_empty.
  - intros before filename after formula -> Hhere Hlater.
    apply filelist_loop_app in Hrun as (cs1 & tr1 & _ & Hrun).
    rewrite filelist_loop_cons in Hrun.
    assert (¬ is_metadata filename) as Hmeta.
    { unfold is_metadata. unfold structure_formula in Hhere.
      intros Hm. rewrite Hm in Hhere. by rewrite decide_True in Hhere. }
    rewrite decide_False, Hhere in Hrun by done.
    destruct (zip_read _ _ _) as [content|]; [|done]. simpl in Hrun.
    exists content. split; [done|].
    rewrite (filelist_loop_no_entry _ _ _ _ _ _ _ _ Hrun Hlater).
    apply lookup_insert_eq.
Qed.

Lemma metadata_loop_training lines :
  ∀ tr tr',
    metadata_loop lines tr = Ok tr' →
    ∀ formula, formula ∈ tr' ↔
      formula ∈ tr ∨ ∃ line, line ∈ lines ∧ training_row line formula.
Proof.
  induction lines as [|line rest IH]; intros tr tr' Hrun formula.
  - simpl in Hrun. simplify_eq. split; [by left|].
    intros [?|(line & Hin & _)]; [done|]. by apply elem_of_nil in Hin.
  - simpl in Hrun. unfold index in Hrun.
    destruct (line !! 0%nat) as [a|] eqn:Ha; [|done]. simpl in Hrun.
    destruct (line !! 1%nat) as [b|] eqn:Hb; [|done]. simpl in Hrun.
    case_decide as Hsrc.
    + rewrite (IH _ _ Hrun formula). rewrite elem_of_union, elem_of_singleton.
      split.
      * intros [[->|?]|(l & Hin & Hl)]; [|by left|].
        -- right. exists line. split; [by left|]. by exists a, b.
        -- right. exists l. split; [by right|done].
      * intros [?|(l & [->|Hin]%elem_of_cons & Hl)]; [by left; right| |].
        -- destruct Hl as (a' & b' & Ha' & Hb' & <- & _). simplify_eq.
           by left; left.
        -- right. by exists l.
    + rewrite (IH _ _ Hrun formula). split.
      * intros [?|(l & Hin & Hl)]; [by left|].
        right. exists l. split; [by right|done].
      * intros [?|(l & [->|Hin]%elem_of_cons & Hl)]; [by left| |].
        -- destruct Hl as (a' & b' & Ha' & Hb' & _ & Hts). simplify_eq.
        -- right. by exists l.
Qed.

Lemma filelist_loop_training w challenge_set_path filelist :
  ∀ cs tr cs' tr',
    filelist_loop w challenge_set_path filelist cs tr = Ok (cs', tr') →
    ∀ formula, formula ∈ tr' ↔
      formula ∈ tr ∨
      ∃ filename, filename ∈ filelist ∧
        training_entry w challenge_set_path filename formula.
Proof.
  induction filelist as [|filename rest IH]; intros cs tr cs' tr' Hrun formula.
  - simpl in Hrun. simplify_eq. split; [by left|].
    intros [?|(fn & Hin & _)]; [done|]. by apply elem_of_nil in Hin.
  - rewrite filelist_loop_cons in Hrun. case_decide as Hmeta.
    + destruct (zip_read _ _ _) as [content|] eqn:Hread; [|done].
      simpl in Hrun.
      destruct (csv_reader content) as [|header rows] eqn:Hcsv; [done|].
      simpl in Hrun.
      destruct (metadata_loop rows tr) as [tr1|] eqn:Hmd; [|done].
      simpl in Hrun. rewrite (IH _ _ _ _ Hrun formula).
      rewrite (metadata_loop_training _ _ _ Hmd formula). split.
      * intros [[?|(line & Hin & Hrow)]|(fn & Hin & Hfn)]; [by left| |].
        -- right. exists filename. split; [by left|].
           split; [done|]. by exists content, header, rows, line.
        -- right. exists fn. split; [by right|done].
      * intros [?|(fn & [->|Hin]%elem_of_cons & Hfn)]; [by left; left| |].
        -- destruct Hfn as (_ & c & h & r & line & Hc & Hr & Hin & Hrow).
           rewrite Hread in Hc. simplify_eq. rewrite Hcsv in Hr. simplify_eq.
           left; right. by exists line.
        -- right. by exists fn.
    + assert (∀ cs1, filelist_loop w challenge_set_path rest cs1 tr
                       = Ok (cs', tr') →
              formula ∈ tr' ↔ formula ∈ tr ∨
                ∃ fn, fn ∈ filename :: rest ∧
                  training_entry w challenge_set_path fn formula) as Hskip.
      { intros cs1 Hrest. rewrite (IH _ _ _ _ Hrest formula). split.
        - intros [?|(fn & Hin & Hfn)]; [by left|].
          right. exists fn. split; [by right|done].
        - intros [?|(fn & [->|Hin]%elem_of_cons & Hfn)]; [by left| |].
          + by destruct Hfn as [? _].
          + right. by exists fn. }
      destruct (structure_formula filename) as [g|]; [|eauto].
      destruct (zip_read _ _ _) as [content|]; [|done]. simpl in Hrun. eauto.
Qed.

(** X9. When [read_challenge_set] returns, a formula is in the training set
    exactly when some [metadata.csv] entry of the archive, at whatever
    depth, has after its header a row whose stripped first field is the
    formula and whose stripped second field is [training set]. *)
Theorem read_challenge_set_training_set
    w challenge_set_path filelist challenge_set training_set_formulas :
  zip_filelist w challenge_set_path = Ok filelist →
  read_challenge_set w challenge_set_path
    = Ok (challenge_set, training_set_formulas) →
  ∀ formula,
    formula ∈ training_set_formulas ↔
    ∃ filename, filename ∈ filelist ∧
      training_entry w challenge_set_path filename formula.
Proof.
  intros Hlist Hrun formula. unfold read_challenge_set in Hrun.
  rewrite Hlist in Hrun. simpl in Hrun.
  rewrite (filelist_loop_training _ _ _ _ _ _ _ Hrun formula).
  split; [|by right]. intros [Hempty|?]; [|done].
  by apply not_elem_of_empty in Hempty.
Qed.

End LoaderFacts.

Lemma startswith_sep_contains s : startswith s "/" = true → contains "/" s = true.
Proof.
  unfold startswith. destruct s as [|c s]; [done|].
  change (String.prefix "/" (String c s))
    with (if Ascii.ascii_dec "/" c then String.prefix "" s else false).
  destruct (Ascii.ascii_dec "/" c) as [<-|]; [|done]. intros _.
  unfold contains. by rewrite decide_True.
Qed.

Lemma endswith_sep_contains s : endswith s "/" = true → contains "/" s = true.
Proof.
  induction s as [|c s IH]; [done|]. simpl.
  case_decide as Heq.
  - simplify_eq. done.
  - intros Hs. case_decide; [done|]. by apply IH.
Qed.

Lemma endswith_app a b : b ≠ "" → endswith (a +:+ b) "/" = endswith b "/".
Proof.
  intros Hb. induction a as [|c a IH]; [done|]. simpl.
  case_decide as Heq; [|done].
  simplify_eq. destruct a; [done|done].
Qed.

Lemma os_path_join_one a b :
  startswith b "/" = false → a ≠ "" →
  os_path_join a [b] = if endswith a "/" then a +:+ b else a +:+ "/" +:+ b.
Proof.
  intros Hb Ha. unfold os_path_join. cbn [foldl]. rewrite Hb.
  by rewrite decide_False.
Qed.

Lemma append_not_empty a b : a ≠ "" → a +:+ b ≠ "".
Proof. by destruct a. Qed.

Section OutputPaths.
Context `{Host}.

(** X10. A formula of the challenge set that [read_challenge_set] returns
    contains no [/], so the directory made for it is [out_dir] followed by
    the formula, and, unless the formula is empty, a file written for it
    under a relative name is named [out_dir], formula, [/], name. *)
Theorem challenge_set_formula_is_one_component
    w challenge_set_path challenge_set training_set_formulas formula content :
  read_challenge_set w challenge_set_path
    = Ok (challenge_set, training_set_formulas) →
  challenge_set !! formula = Some content →
  contains "/" formula = false ∧
  os_path_join out_dir [formula] = out_dir +:+ formula ∧
  (formula ≠ "" →
   ∀ name, startswith name "/" = false →
     os_path_join out_dir [formula; name]
       = out_dir +:+ formula +:+ "/" +:+ name).
Proof.
  intros Hrun Hlook.
  assert (contains "/" formula = false) as Hsep.
  { unfold read_challenge_set in Hrun.
    destruct (zip_filelist w challenge_set_path) as [filelist|] eqn:Hlist;
      [|done].
    simpl in Hrun.
    destruct (filelist_loop_sound _ _ _ _ _ _ _ _ _ Hrun Hlook)
      as [Hempty|(filename & _ & Hf & _)].
    - by rewrite lookup_empty in Hempty.
    - by eapply structure_formula_no_sep. }
  assert (startswith formula "/" = false) as Hstart.
  { destruct (startswith formula "/") eqn:Hs; [|done].
    apply startswith_sep_contains in Hs. congruence. }
  assert (os_path_join out_dir [formula] = out_dir +:+ formula) as Hdir.
  { by rewrite os_path_join_one. }
  split; [done|]. split; [done|].
  intros Hne name Hname.
  change (os_path_join out_dir [formula; name])
    with (os_path_join (os_path_join out_dir [formula]) [name]).
  rewrite Hdir, os_path_join_one; [|done|by apply append_not_empty].
  rewrite endswith_app by done.
  destruct (endswith formula "/") eqn:He; [|done].
  apply endswith_sep_contains in He. congruence.
Qed.

End OutputPaths.

(** ** Further properties of the Aggregator/Reporter *)

Section AggregatorFacts2.
Context `{Host}.

Lemma keeps_ret {A} I (a : A) : keeps I (mret a).
Proof. by intros s Hs. Qed.

Lemma keeps_bind {A B} I (m : M A) (f : A → M B) :
  keeps I m → (∀ a, returns m a → keeps I (f a)) → keeps I (m ≫= f).
Proof.
  intros Hm Hf s Hs. specialize (Hm s Hs). unfold mbind, M_bind.
  destruct (m s) as [[s1 t1] [a|e]] eqn:Hms; [|done]. simpl in Hm.
  assert (returns m a) as Hret by (exists s; by rewrite Hms).
  specialize (Hf a Hret s1 Hm). by destruct (f a s1) as [[s2 t2] r].
Qed.

Lemma keeps_fmap {A B} I (g : A → B) (m : M A) :
  keeps I m → keeps I (g <$> m).
Proof.
  intros Hm. apply keeps_bind; [done|]. intros a _. apply keeps_ret.
Qed.

Lemma keeps_reading {A} I (f : world → result A) : keeps I (reading f).
Proof. by intros s Hs. Qed.

Lemma keeps_lift {A} I (r : result A) : keeps I (lift r).
Proof. by intros s Hs. Qed.

Lemma keeps_when I b m : keeps I m → keeps I (when b m).
Proof. destruct b; [done|]. intros _. apply keeps_ret. Qed.

Lemma keeps_sys I op :
  (∀ s w, I s → I (State w (validity_count s) (valid_on_first_count s)
                     (match_true_count_all s) (match_true_count_unseen s)
                     (rows s))) →
  keeps I (sys op).
Proof.
  intros Hw s Hs. unfold sys. destruct (op (fs s)) as [w r]. simpl. eauto.
Qed.

Lemma keeps_for {A} I (l : list A) (body : A → M unit) :
  (∀ x, x ∈ l → keeps I (body x)) → keeps I (for_ l body).
Proof.
  induction l as [|x l IH]; intros Hbody.
  - apply keeps_ret.
  - rewrite for_cons. apply keeps_bind; [apply Hbody; by left|].
    intros _ _. apply IH. intros y Hy. apply Hbody. by right.
Qed.

Lemma returns_reading {A} (f : world → result A) a :
  returns (reading f) a → ∃ w, f w = Ok a.
Proof. intros [s Hs]. by exists (fs s). Qed.

Lemma returns_lift {A} (r : result A) a : returns (lift r) a → r = Ok a.
Proof. by intros [s Hs]. Qed.

Lemma returns_fmap {A B} (g : A → B) (m : M A) b :
  returns (g <$> m) b → ∃ a, returns m a ∧ b = g a.
Proof.
  intros [s Hs]. unfold fmap, M_fmap, mbind, M_bind in Hs.
  destruct (m s) as [[s1 t1] [a|e]] eqn:Hms; [|done].
  simpl in Hs. simplify_eq. exists a. split; [|done].
  exists s. by rewrite Hms.
Qed.

Lemma yes_no_yes b : bool_decide (yes_no b = "yes") = b.
Proof. by destruct b. Qed.

Lemma variant_rows_snoc label rows row :
  variant_rows label (rows ++ [row])%list =
    (variant_rows label rows
     + if bool_decide (row !! 3%nat = Some label) then 1 else 0)%Z.
Proof.
  unfold variant_rows. rewrite filter_app, length_app, filter_cons, filter_nil.
  case_bool_decide as Hd.
  - rewrite decide_True by done. simpl. lia.
  - rewrite decide_False by done. simpl. lia.
Qed.

Lemma yes_rows_snoc column label rows row :
  yes_rows column label (rows ++ [row])%list =
    (yes_rows column label rows
     + if bool_decide (row !! 3%nat = Some label ∧ row !! column = Some "yes")
       then 1 else 0)%Z.
Proof.
  unfold yes_rows. rewrite filter_app, length_app, filter_cons, filter_nil.
  case_bool_decide as Hd.
  - rewrite decide_True by done. simpl. lia.
  - rewrite decide_False by done. simpl. lia.
Qed.

(** Lines 265-284 and 296-315: the row and its counts. *)
Lemma counting_keeps energies challenge_set training
    i label row (b1 vf mt b4 : bool) :
  (i = 0%nat ∧ label = "no") ∨ (i = 1%nat ∧ label = "yes") →
  row_ok energies challenge_set training row →
  row !! 3%nat = Some label →
  row !! 7%nat = Some (yes_no vf) →
  row !! 8%nat = Some (yes_no mt) →
  (mt = true → b1 = true) →
  keeps (summary_ok energies challenge_set training)
    (rows_append row ;;
     when b1 (incr_validity_count i) ;;
     when (bool_decide (yes_no vf = "yes")) (incr_valid_on_first_count i) ;;
     when (bool_decide (yes_no mt = "yes"))
       (incr_match_true_count_all i ;;
        when b4 (incr_match_true_count_unseen i))).
Proof.
  intros Hi Hrow H3 H7 H8 Hmt s [Hrows Hcounts].
  destruct Hcounts
    as (v0 & v1 & f0 & f1 & a0 & a1 & u0 & u1 &
        Hv & Hf & Ha & Hu & Hf0 & Hf1 & Ha0 & Ha1 & Hv0 & Hv1 & Hu0 & Hu1).
  rewrite !yes_no_yes.
  unfold mbind, M_bind, rows_append, incr_validity_count,
    incr_valid_on_first_count, incr_match_true_count_all,
    incr_match_true_count_unseen, when, assign, incr, index, mret, M_ret.
  assert (b1 = false → mt = false) as Hmt'.
  { destruct mt; [|done]. intros ->. by discriminate Hmt. }
  destruct Hi as [[-> ->]|[-> ->]], b1, vf, mt, b4;
    try (by discriminate Hmt'); simpl; rewrite ?Hv, ?Hf, ?Ha, ?Hu; simpl;
    (split; simpl;
     [ apply Forall_app; split; [done|by constructor]
     | eexists _, _, _, _, _, _, _, _;
       repeat (split; [reflexivity|]);
       cbn [rows];
       rewrite !yes_rows_snoc, !variant_rows_snoc, H3, H7, H8;
       repeat case_bool_decide; simpl in *;
       try (exfalso; intuition congruence); lia ]).
Qed.

Lemma read_props_candidate_valid w fname formula validity_rate min_E mean_E cif :
  read_props w fname formula = Ok (validity_rate, min_E, mean_E, Some cif) →
  flt zero validity_rate = true.
Proof.
  intros Hprops. unfold read_props in Hprops.
  destruct (read_results_csv w fname) as [results|] eqn:Hres; [|done].
  simpl in Hprops.
  pose proof (read_results_csv_no_candidate _ _ _ Hres) as Hinv.
  destruct (results !! formula) as [r|] eqn:Hr; simplify_eq.
  destruct (flt zero (validity_rate r)) eqn:Hvr; [done|].
  rewrite (Hinv _ _ Hr Hvr) in *. done.
Qed.

Lemma matches_true_candidate true_cif best_cif
    (struct_matcher : Structure → Structure → result bool) :
  matches_true true_cif best_cif struct_matcher = Ok true →
  ∃ cif, best_cif = Some cif.
Proof. destruct best_cif as [cif|]; [by exists cif|done]. Qed.

Lemma summary_ok_fs energies challenge_set training s w :
  summary_ok energies challenge_set training s →
  summary_ok energies challenge_set training
    (State w (validity_count s) (valid_on_first_count s)
       (match_true_count_all s) (match_true_count_unseen s) (rows s)).
Proof. done. Qed.

Lemma write_cif_and_envs_keeps energies challenge_set training
    root_dir formula cif name d a m :
  keeps (summary_ok energies challenge_set training)
    (write_cif_and_envs root_dir formula cif name d a m).
Proof.
  unfold write_cif_and_envs, write_file.
  apply keeps_bind; [apply keeps_sys, summary_ok_fs|]. intros _ _.
  apply keeps_bind; [apply keeps_lift|]. intros environments _.
  apply keeps_sys, summary_ok_fs.
Qed.

Lemma variant_keeps energies challenge_set training
    i suffix name label formula true_cif energy seen :
  (i = 0%nat ∧ label = "no") ∨ (i = 1%nat ∧ label = "yes") →
  is_Some (challenge_set !! formula) →
  energies !! formula = Some energy →
  keeps (summary_ok energies challenge_set training)
    (variant i suffix name label training formula true_cif energy seen).
Proof.
  intros Hi Hkey Henergy. unfold variant.
  apply keeps_bind; [apply keeps_reading|].
  intros [[[validity_rate min_E] mean_E] best_cif] [w Hprops]%returns_reading.
  apply keeps_bind; [apply keeps_fmap, keeps_reading|].
  intros valid_on_first (vf & _ & ->)%returns_fmap.
  apply keeps_bind; [apply keeps_fmap, keeps_lift|].
  intros is_match (mt & Hmatch%returns_lift & ->)%returns_fmap.
  apply keeps_bind; [apply keeps_when, write_cif_and_envs_keeps|].
  intros _ _.
  apply (counting_keeps _ _ _ i label); try done.
  - split; [done|]. split; [by exists formula, energy|].
    split; [|split]; unfold yes_or_no; simpl.
    + destruct Hi as [[_ ->]|[_ ->]]; eauto.
    + destruct vf; eauto.
    + destruct mt; eauto.
  - intros ->. apply matches_true_candidate in Hmatch as [cif ->].
    by eapply read_props_candidate_valid.
Qed.

Lemma formula_body_keeps energies challenge_set training formula :
  formula ∈ sorted challenge_set →
  keeps (summary_ok energies challenge_set training)
    (formula_body energies challenge_set training formula).
Proof.
  intros Hkey%elem_of_sorted. unfold formula_body.
  apply keeps_bind; [apply keeps_sys, summary_ok_fs|]. intros _ _.
  apply keeps_bind; [apply keeps_lift|]. intros true_cif _.
  apply keeps_bind; [apply keeps_lift|].
  intros energy Henergy%returns_lift.
  assert (energies !! formula = Some energy) as Hlook.
  { unfold getitem in Henergy. destruct (energies !! formula); by simplify_eq. }
  apply keeps_bind; [apply write_cif_and_envs_keeps|]. intros _ _.
  apply keeps_bind; [apply variant_keeps; auto|]. intros _ _.
  apply variant_keeps; auto.
Qed.

Lemma main_loop_summary_ok energies challenge_set training s :
  summary_ok energies challenge_set training
    (main_loop energies challenge_set training s).1.1.
Proof.
  rewrite main_loop_run.
  assert (summary_ok energies challenge_set training (start s)) as Hstart.
  { split; [constructor|].
    exists 0%Z, 0%Z, 0%Z, 0%Z, 0%Z, 0%Z, 0%Z, 0%Z. done. }
  assert (keeps (summary_ok energies challenge_set training)
            (loop_and_table energies challenge_set training)) as Hkeeps.
  { unfold loop_and_table. apply keeps_bind.
    - apply keeps_for. intros formula Hin. by apply formula_body_keeps.
    - intros _ _. apply keeps_bind; [by intros s1 Hs1|].
      intros rows _. apply keeps_sys, summary_ok_fs. }
  specialize (Hkeeps _ Hstart).
  by destruct (loop_and_table _ _ _ (start s)) as [[s1 t1] r].
Qed.

(** X11. However the loop ends, in the state it ends in the two slots of
    the first-attempt counter and of the all-matches counter are the
    numbers of rows of the run without and with space group that have
    [yes] in the [valid_on_first] and in the [matches_true] field. *)
Theorem counters_count_the_yes_rows energies challenge_set training s :
  valid_on_first_count (main_loop energies challenge_set training s).1.1
    = [yes_rows 7 "no" (rows (main_loop energies challenge_set training s).1.1);
       yes_rows 7 "yes" (rows (main_loop energies challenge_set training s).1.1)] ∧
  match_true_count_all (main_loop energies challenge_set training s).1.1
    = [yes_rows 8 "no" (rows (main_loop energies challenge_set training s).1.1);
       yes_rows 8 "yes" (rows (main_loop energies challenge_set training s).1.1)].
Proof.
  destruct (main_loop_summary_ok energies challenge_set training s)
    as [_ (v0 & v1 & f0 & f1 & a0 & a1 & u0 & u1 &
           Hv & Hf & Ha & Hu & -> & -> & -> & -> & _)].
  by rewrite Hf, Ha.
Qed.

(** X12. However the loop ends, in each slot the all-matches counter is at
    most the can-generate counter: a formula is counted as matching the
    truth only if it is counted as having a valid candidate. *)
Theorem matches_at_most_can_generate energies challenge_set training s :
  ∃ v0 v1 a0 a1 : Z,
    validity_count (main_loop energies challenge_set training s).1.1
      = [v0; v1] ∧
    match_true_count_all (main_loop energies challenge_set training s).1.1
      = [a0; a1] ∧
    (0 ≤ a0 ≤ v0)%Z ∧ (0 ≤ a1 ≤ v1)%Z.
Proof.
  destruct (main_loop_summary_ok energies challenge_set training s)
    as [_ (v0 & v1 & f0 & f1 & a0 & a1 & u0 & u1 &
           Hv & Hf & Ha & Hu & _ & _ & _ & _ & Hv0 & Hv1 & Hu0 & Hu1)].
  exists v0, v1, a0, a1. repeat split; try done; lia.
Qed.

Lemma variant_rows_key_columns label rows :
  variant_rows label rows =
    Z.of_nat (length (filter (λ k, k.2 = Some label) (key_columns rows))).
Proof.
  unfold variant_rows, key_columns. f_equal.
  induction rows as [|row rows IH]; [done|].
  rewrite fmap_cons, !filter_cons. simpl.
  destruct (decide (row !! 3%nat = Some label)); simpl; by rewrite IH.
Qed.

Lemma filter_label_pairs label (l : list string) :
  label = "no" ∨ label = "yes" →
  length (filter (λ k : option string * option string, k.2 = Some label)
            (concat ((λ formula, [(Some formula, Some "no");
                                  (Some formula, Some "yes")]) <$> l)))
  = length l.
Proof.
  intros Hlabel. induction l as [|x l IH]; [done|].
  rewrite fmap_cons, concat_cons. simpl. rewrite !filter_cons. simpl.
  destruct Hlabel as [-> | ->].
  - rewrite decide_True, decide_False by done. simpl. by rewrite IH.
  - rewrite decide_False, decide_True by done. simpl. by rewrite IH.
Qed.

Lemma yes_rows_le column label rows :
  (0 ≤ yes_rows column label rows ≤ variant_rows label rows)%Z.
Proof.
  unfold yes_rows, variant_rows. split; [lia|]. apply inj_le.
  induction rows as [|row rows IH]; [done|]. rewrite !filter_cons.
  destruct (decide (row !! 3%nat = Some label ∧ row !! column = Some "yes"))
    as [[H3 _]|_].
  - rewrite decide_True by done. simpl. lia.
  - case_decide; simpl; lia.
Qed.

Lemma length_pairs (l : list string) :
  length (concat ((λ formula, [(Some formula, Some "no");
                               (Some formula, Some "yes")]) <$> l))
  = (2 * length l)%nat.
Proof.
  induction l as [|x l IH]; [done|].
  rewrite fmap_cons, concat_cons, length_app, IH. simpl. lia.
Qed.

Lemma length_sorted {V} (d : gmap string V) : length (sorted d) = size d.
Proof.
  rewrite sorted_Permutation. rewrite <- size_dom. reflexivity.
Qed.

(** X13. When the loop and the writing of the table complete, the table has
    two rows per formula of the challenge set, and every slot of the four
    counters is between zero and the number of formulas, so that none of
    the printed fractions exceeds one. *)
Theorem counters_at_most_number_of_formulas
    energies challenge_set training s s' tr :
  main_loop energies challenge_set training s = (s', tr, Ok ()) →
  length (rows s') = (2 * size challenge_set)%nat ∧
  ∀ counter,
    counter ∈ [validity_count s'; valid_on_first_count s';
               match_true_count_all s'; match_true_count_unseen s'] →
    ∃ c0 c1 : Z,
      counter = [c0; c1] ∧
      (0 ≤ c0 ≤ Z.of_nat (size challenge_set))%Z ∧
      (0 ≤ c1 ≤ Z.of_nat (size challenge_set))%Z.
Proof.
  intros Hrun.
  destruct (completed_run_rows _ _ _ _ _ _ Hrun) as (Hkeys & _).
  pose proof (main_loop_summary_ok energies challenge_set training s) as Hok.
  rewrite Hrun in Hok. simpl in Hok.
  destruct Hok as [_ (v0 & v1 & f0 & f1 & a0 & a1 & u0 & u1 &
                      Hv & Hf & Ha & Hu & -> & -> & -> & -> &
                      Hv0 & Hv1 & Hu0 & Hu1)].
  assert (∀ label, label = "no" ∨ label = "yes" →
            variant_rows label (rows s') = Z.of_nat (size challenge_set))
    as Hn.
  { intros label Hlabel.
    by rewrite variant_rows_key_columns, Hkeys, filter_label_pairs,
      length_sorted. }
  rewrite (Hn "no") in Hv0 by auto. rewrite (Hn "yes") in Hv1 by auto.
  pose proof (yes_rows_le 7 "no" (rows s')) as Hf0.
  pose proof (yes_rows_le 7 "yes" (rows s')) as Hf1.
  pose proof (yes_rows_le 8 "no" (rows s')) as Ha0.
  pose proof (yes_rows_le 8 "yes" (rows s')) as Ha1.
  rewrite (Hn "no") in Hf0, Ha0 by auto.
  rewrite (Hn "yes") in Hf1, Ha1 by auto.
  split.
  - assert (length (key_columns (rows s')) = length (rows s')) as <-.
    { unfold key_columns. apply length_fmap. }
    by rewrite Hkeys, length_pairs, length_sorted.
  - intros counter Hin. rewrite Hv, Hf, Ha, Hu in Hin.
    repeat (apply elem_of_cons in Hin as [->|Hin]);
      [eexists _, _; split; [reflexivity|]; lia ..|].
    by apply elem_of_nil in Hin.
Qed.

(** X14. However the loop ends, every row it has appended has as many
    fields as the header, with [yes] or [no] in the fields for the
    provenance, the run variant, the first attempt and the match. *)
Theorem rows_have_the_fields_of_the_header energies challenge_set training s :
  ∀ row, row ∈ rows (main_loop energies challenge_set training s).1.1 →
    length row = length header ∧
    yes_or_no (row !! 1%nat) ∧ yes_or_no (row !! 3%nat) ∧
    yes_or_no (row !! 7%nat) ∧ yes_or_no (row !! 8%nat).
Proof.
  destruct (main_loop_summary_ok energies challenge_set training s)
    as [Hrows _].
  intros row Hrow. rewrite Forall_forall in Hrows.
  destruct (Hrows _ Hrow)
    as (Hlen & (formula & energy & _ & _ & _ & _ & H1) & H3 & H7 & H8).
  repeat split; try done. rewrite H1. unfold yes_or_no.
  case_decide; eauto.
Qed.

(** X15. However the loop ends, every row it has appended is about a
    formula of the challenge set that has an entry in the energy table,
    and reports that entry, formatted with five decimals, as [true_E] and
    the membership of the formula in the training set as provenance. *)
Theorem rows_report_energy_and_provenance energies challenge_set training s :
  ∀ row, row ∈ rows (main_loop energies challenge_set training s).1.1 →
    ∃ formula energy,
      row !! 0%nat = Some formula ∧
      is_Some (challenge_set !! formula) ∧
      energies !! formula = Some energy ∧
      row !! 2%nat = Some (format_f 5 energy) ∧
      row !! 1%nat = Some (if decide (formula ∈ training) then "yes" else "no").
Proof.
  destruct (main_loop_summary_ok energies challenge_set training s)
    as [Hrows _].
  intros row Hrow. rewrite Forall_forall in Hrows.
  by destruct (Hrows _ Hrow) as (_ & Hfields & _).
Qed.

(** X16. [write_cif_and_envs] writes the structure file before it analyses
    the structure: when that write fails nothing else is done; when the
    analysis raises, the structure file stays written without its report
    and the exception is raised; otherwise the report is written next to
    it.  The rows are left as they are. *)
Theorem write_cif_and_envs_steps root_dir formula cif name d a m s :
  (∀ w1 e,
     open_wt (os_path_join root_dir [formula; name +:+ ".cif"]) cif (fs s)
       = (w1, Raise e) →
     (write_cif_and_envs root_dir formula cif name d a m s).2 = Raise e ∧
     fs (write_cif_and_envs root_dir formula cif name d a m s).1.1 = w1) ∧
  (∀ w1 e,
     open_wt (os_path_join root_dir [formula; name +:+ ".cif"]) cif (fs s)
       = (w1, Ok ()) →
     analyze_local_environments cif d a m = Raise e →
     (write_cif_and_envs root_dir formula cif name d a m s).2 = Raise e ∧
     fs (write_cif_and_envs root_dir formula cif name d a m s).1.1 = w1) ∧
  (∀ w1 environments w2 r,
     open_wt (os_path_join root_dir [formula; name +:+ ".cif"]) cif (fs s)
       = (w1, Ok ()) →
     analyze_local_environments cif d a m = Ok environments →
     open_wt (os_path_join root_dir [formula; name +:+ "_envs.txt"])
       environments w1 = (w2, r) →
     (write_cif_and_envs root_dir formula cif name d a m s).2 = r ∧
     fs (write_cif_and_envs root_dir formula cif name d a m s).1.1 = w2) ∧
  rows (write_cif_and_envs root_dir formula cif name d a m s).1.1 = rows s.
Proof.
  unfold write_cif_and_envs, write_file, mbind, M_bind, sys, lift.
  destruct (open_wt _ cif (fs s)) as [w1' [[]|e1]] eqn:Hcif; simpl.
  - destruct (analyze_local_environments cif d a m) as [envs|e2] eqn:Hana;
      simpl.
    + destruct (open_wt _ envs w1') as [w2' r2] eqn:Henvs. simpl.
      split; [by intros|]. split; [by intros|]. split; [|done].
      intros w1x environments w2x r Hw1 Henv Hw. simplify_eq.
      rewrite Henvs in Hw. by simplify_eq.
    + split; [by intros|]. split; [|split; [by intros|done]].
      intros w1x e Hw1 He. by simplify_eq.
  - split; [|split; [by intros|split; [by intros|done]]].
    intros w1x e Hw1. by simplify_eq.
Qed.

(** X17. The script loads its inputs before it touches the output
    directory: when the energy table or the archive cannot be read, the
    run ends with that exception and the file system is as it was.  When
    the script completes, its table has two rows per formula of the
    archive as it was read from the file system the script started in, and
    every row reports the energy that the energy table of that file system
    gives for its formula, whatever the script has removed and written in
    between. *)
Theorem main_loads_before_it_resets s :
  (∀ e,
     read_alignn_energies (fs s) "../out/ChallengeSet-v1.alignn_energies.csv"
       = Raise e →
     main s = (s, [], Raise e)) ∧
  (∀ energies e,
     read_alignn_energies (fs s) "../out/ChallengeSet-v1.alignn_energies.csv"
       = Ok energies →
     read_challenge_set (fs s) challenge_set_path = Raise e →
     main s = (s, [], Raise e)) ∧
  (∀ s' tr,
     main s = (s', tr, Ok ()) →
     ∃ energies challenge_set training,
       read_alignn_energies (fs s) "../out/ChallengeSet-v1.alignn_energies.csv"
         = Ok energies ∧
       read_challenge_set (fs s) challenge_set_path
         = Ok (challenge_set, training) ∧
       length (rows s') = (2 * size challenge_set)%nat ∧
       ∀ row, row ∈ rows s' →
         ∃ formula energy,
           row !! 0%nat = Some formula ∧
           is_Some (challenge_set !! formula) ∧
           energies !! formula = Some energy ∧
           row !! 2%nat = Some (format_f 5 energy)).
Proof.
  split; [|split].
  - intros e He. unfold main, mbind, M_bind, reading. by rewrite He.
  - intros energies e He Hc. unfold main, mbind, M_bind, reading.
    by rewrite He, Hc.
  - unfold main. intros s' tr Hrun.
    apply bind_Ok_inv in Hrun as (s1 & t1 & energies & t2 & He & Hrun & _).
    apply bind_Ok_inv in Hrun as (s2 & t3 & [cs tr'] & t4 & Hc & Hrun & _).
    apply bind_Ok_inv in Hrun as (s3 & t5 & b & t6 & Hb & Hrun & _).
    apply bind_Ok_inv in Hrun as (s4 & t7 & [] & t8 & Hrm & Hrun & _).
    apply bind_Ok_inv in Hrun as (s5 & t9 & [] & t10 & Hmk & Hrun & _).
    unfold reading in He, Hc. simplify_eq.
    exists energies, cs, tr'. split; [done|]. split; [done|].
    destruct (completed_run_rows _ _ _ _ _ _ Hrun) as (Hkeys & _).
    pose proof (main_loop_summary_ok energies cs tr' s5) as Hok.
    rewrite Hrun in Hok. simpl in Hok. destruct Hok as [Hrows _].
    split.
    + assert (length (key_columns (rows s')) = length (rows s')) as <-.
      { unfold key_columns. apply length_fmap. }
      by rewrite Hkeys, length_pairs, length_sorted.
    + intros row Hrow. rewrite Forall_forall in Hrows.
      destruct (Hrows _ Hrow)
        as (_ & (formula & energy & Hfirst & Hkey & Henergy & Hthird & _) & _).
      by exists formula, energy.
Qed.

End AggregatorFacts2.

(** ** Further runs on the small host *)

Ltac not_in :=
  simpl; intros Hin;
  repeat (apply elem_of_cons in Hin as [Heq|Hin]; [discriminate Heq|]);
  by apply elem_of_nil in Hin.

Ltac is_in := repeat first [by left | right].

(** X1 on an energy table with two rows for NaCl. *)
Lemma energy_of_NaCl_is_its_last_row :
  ∃ energies,
    read_alignn_energies (H := Demo.host) Runs2.energies_twice "energies.csv"
      = Ok energies ∧
    energies !! "K2O" = None ∧
    energies !! "NaCl" = Some (FFin (- 41 # 10)).
Proof.
  destruct (read_alignn_energies_last_row_wins (H := Demo.host)
              Runs2.energies_twice "energies.csv"
              (Runs.text ["formula,energy"; "NaCl,-3.9"; "Li2O,-6.0"; "NaCl,-4.1"])
              ["formula"; "energy"]
              [["NaCl"; "-3.9"]; ["Li2O"; "-6.0"]; ["NaCl"; "-4.1"]]
              [("NaCl", FFin (- 39 # 10)); ("Li2O", FFin (- 60 # 10));
               ("NaCl", FFin (- 41 # 10))])
    as (energies & Hrun & Hnone & Hlast).
  - vm_compute. reflexivity.
  - vm_compute. reflexivity.
  - repeat constructor; simpl; by eexists.
  - exists energies. split; [exact Hrun|]. split.
    + apply Hnone. not_in.
    + apply (Hlast [("NaCl", FFin (- 39 # 10)); ("Li2O", FFin (- 60 # 10))]
               "NaCl" (FFin (- 41 # 10)) []); [reflexivity|not_in].
Defined.

(** X2 on a missing table and on a table with an energy that is no float. *)
Lemma energy_table_missing_or_broken :
  read_alignn_energies (H := Demo.host) Runs2.energies_twice "missing.csv"
    = Raise (FileNotFoundError "missing.csv") ∧
  (read_alignn_energies (H := Demo.host) Runs2.energies_twice "broken.csv"
     = Raise IndexError ∨
   read_alignn_energies (H := Demo.host) Runs2.energies_twice "broken.csv"
     = Raise ValueError).
Proof.
  destruct (read_alignn_energies_failures (H := Demo.host)
              Runs2.energies_twice "missing.csv") as (Hopen & _ & _).
  destruct (read_alignn_energies_failures (H := Demo.host)
              Runs2.energies_twice "broken.csv") as (_ & _ & Hrow).
  split.
  - apply Hopen. vm_compute. reflexivity.
  - apply (Hrow (Runs.text ["formula,energy"; "NaCl,-3.9"; "Li2O,unknown"])
             ["formula"; "energy"]
             [["NaCl"; "-3.9"]; ["Li2O"; "unknown"]] ["Li2O"; "unknown"]).
    + vm_compute. reflexivity.
    + vm_compute. reflexivity.
    + is_in.
    + intros c [_ (cell & Hcell & Hfloat)]. simpl in Hcell. by simplify_eq.
Defined.

(** X3 on a summary table with two rows for NaCl. *)
Lemma props_of_NaCl_are_its_last_row :
  read_props (H := Demo.host) Runs2.summary_twice Runs.no_sg "NaCl"
    = Ok (FFin (0 # 10), FFin (- 40 # 10), FFin (- 30 # 10), None) ∧
  last_for "NaCl"
    [("NaCl", (FFin (0 # 10), FFin (- 10 # 10), FFin (- 20 # 10)));
     ("NaCl", (FFin (0 # 10), FFin (- 30 # 10), FFin (- 40 # 10)))]
    = Some (FFin (0 # 10), FFin (- 30 # 10), FFin (- 40 # 10)).
Proof.
  assert (read_props (H := Demo.host) Runs2.summary_twice Runs.no_sg "NaCl"
            = Ok (FFin (0 # 10), FFin (- 40 # 10), FFin (- 30 # 10), None))
    as Hprops by (vm_compute; reflexivity).
  destruct (read_props_last_row_wins (H := Demo.host)
              Runs2.summary_twice Runs.no_sg
              (Runs.text ["formula,validity_rate,mean_E,min_E";
                          "NaCl,0.0,-1.0,-2.0"; "NaCl,0.0,-3.0,-4.0"])
              ["formula"; "validity_rate"; "mean_E"; "min_E"]
              [["NaCl"; "0.0"; "-1.0"; "-2.0"]; ["NaCl"; "0.0"; "-3.0"; "-4.0"]]
              [("NaCl", (FFin (0 # 10), FFin (- 10 # 10), FFin (- 20 # 10)));
               ("NaCl", (FFin (0 # 10), FFin (- 30 # 10), FFin (- 40 # 10)))]
              "NaCl"
              (FFin (0 # 10)) (FFin (- 40 # 10)) (FFin (- 30 # 10)) None)
    as [_ Hlast].
  - vm_compute. reflexivity.
  - vm_compute. reflexivity.
  - repeat constructor; simpl; by eexists.
  - exact Hprops.
  - split; [exact Hprops|].
    destruct (Hlast [("NaCl", (FFin (0 # 10), FFin (- 10 # 10), FFin (- 20 # 10)))]
                (FFin (0 # 10)) (FFin (- 30 # 10)) (FFin (- 40 # 10)) [])
      as (_ & _ & _); [reflexivity|not_in|reflexivity].
Defined.

(** X4 on the run with two candidates for NaCl. *)
Lemma best_cif_of_NaCl_is_the_selected_one :
  ∃ cif,
    get_best_cif (H := Demo.host) Runs.complete Runs.no_sg "NaCl" = Ok cif ∧
    Some "data_NaCl" = Some cif.
Proof.
  apply (read_props_best_cif_as_selected (H := Demo.host)
           Runs.complete Runs.no_sg "NaCl"
           (FFin (10 # 10)) (FFin (- 40 # 10)) (FFin (- 35 # 10))
           (Some "data_NaCl")).
  vm_compute. reflexivity.
Defined.

(** X5 on a candidate table with its header only. *)
Lemma nothing_to_select_from_header_only :
  get_best_cif (H := Demo.host) Runs.table_empty Runs.no_sg "NaCl"
    = Raise TypeError.
Proof.
  destruct (get_best_cif_nothing_to_select (H := Demo.host)
              Runs.table_empty Runs.no_sg "NaCl"
              (Runs.text ["cif,iteration,score"])) as [_ Hnone].
  - vm_compute. reflexivity.
  - apply (Hnone ["cif"; "iteration"; "score"] [] []).
    + vm_compute. reflexivity.
    + constructor.
    + intros c Hc. by apply elem_of_nil in Hc.
Defined.

(** X6 on a candidate table with its header only. *)
Lemma first_attempt_of_header_only :
  is_valid_on_first (H := Demo.host) Runs.table_empty (Runs.no_sg +:+ "/NaCl")
    = Raise StopIteration.
Proof.
  destruct (is_valid_on_first_failures (H := Demo.host)
              Runs.table_empty (Runs.no_sg +:+ "/NaCl")) as [_ Hopen].
  - vm_compute. reflexivity.
  - destruct (Hopen (Runs.text ["cif,iteration,score"])) as [Hshort _].
    + vm_compute. reflexivity.
    + apply Hshort. vm_compute. lia.
Defined.

(** X7 on a candidate equal to the ground truth. *)
Lemma match_of_equal_texts :
  ∃ candidate true_struct gen_struct,
    Some "data_NaCl" = Some candidate ∧
    Structure_from_str (Host := Demo.host) "data_NaCl" = Ok true_struct ∧
    Structure_from_str (Host := Demo.host) candidate = Ok gen_struct ∧
    StructureMatcher_fit (Host := Demo.host) true_struct gen_struct = Ok true.
Proof.
  apply (matches_true_only_when_fit_says_so (H := Demo.host)
           "data_NaCl" (Some "data_NaCl") StructureMatcher_fit).
  reflexivity.
Defined.

(** X8 on an archive with two structure files for NaCl: the later one is
    the structure of NaCl, and the file outside a formula directory gives
    none. *)
Lemma structure_of_NaCl_is_the_later_file :
  Runs2.loaded.1 !! "NaCl" = Some "data_new" ∧
  Runs2.loaded.1 !! "Li2O" = None.
Proof.
  destruct (read_challenge_set_last_structure_file_wins (H := Demo.host)
              Runs2.archive_twice "set.zip"
              ["set/metadata.csv"; "set/NaCl/"; "set/NaCl/old_pymatgen.cif";
               "set/NaCl/NaCl.poscar"; "set/NaCl/new_pymatgen.cif";
               "top_pymatgen.cif"]
              Runs2.loaded.1 Runs2.loaded.2)
    as (_ & Hnone & Hlast).
  - vm_compute. reflexivity.
  - vm_compute. reflexivity.
  - split.
    + destruct (Hlast ["set/metadata.csv"; "set/NaCl/";
                       "set/NaCl/old_pymatgen.cif"; "set/NaCl/NaCl.poscar"]
                  "set/NaCl/new_pymatgen.cif" ["top_pymatgen.cif"] "NaCl")
        as (content & Hread & Hlook).
      * reflexivity.
      * vm_compute. reflexivity.
      * intros later Hin. apply list_elem_of_singleton in Hin as ->.
        vm_compute. discriminate.
      * vm_compute in Hread. by simplify_eq.
    + apply Hnone. intros filename Hin.
      repeat (apply elem_of_cons in Hin as [->|Hin];
              [vm_compute; discriminate|]).
      by apply elem_of_nil in Hin.
Defined.

(** X9 on the same archive: K2O is in the training set, through a row
    with blanks around its second field, though it has no structure. *)
Lemma K2O_is_in_the_training_set :
  "K2O" ∈ Runs2.loaded.2 ∧ Runs2.loaded.1 !! "K2O" = None.
Proof.
  split; [|vm_compute; reflexivity].
  apply (read_challenge_set_training_set (H := Demo.host)
           Runs2.archive_twice "set.zip"
           ["set/metadata.csv"; "set/NaCl/"; "set/NaCl/old_pymatgen.cif";
            "set/NaCl/NaCl.poscar"; "set/NaCl/new_pymatgen.cif";
            "top_pymatgen.cif"]
           Runs2.loaded.1 Runs2.loaded.2).
  - vm_compute. reflexivity.
  - vm_compute. reflexivity.
  - exists "set/metadata.csv". split; [by left|]. split.
    + vm_compute. reflexivity.
    + exists (Runs.text ["formula,source"; "NaCl,training set";
                         "K2O, training set "; "Li2O,test set"]),
        ["formula"; "source"],
        [["NaCl"; "training set"]; ["K2O"; " training set "];
         ["Li2O"; "test set"]],
        ["K2O"; " training set "].
      split; [vm_compute; reflexivity|]. split; [vm_compute; reflexivity|].
      split; [is_in|]. exists "K2O", " training set ".
      repeat split; vm_compute; reflexivity.
Defined.

(** X10 on the same archive. *)
Lemma output_paths_of_NaCl :
  contains "/" "NaCl" = false ∧
  os_path_join out_dir ["NaCl"]
    = "../out/cif_model_35_ChallengeSet-v1_analysis/NaCl" ∧
  os_path_join out_dir ["NaCl"; "true.cif"]
    = "../out/cif_model_35_ChallengeSet-v1_analysis/NaCl/true.cif".
Proof.
  destruct (challenge_set_formula_is_one_component (H := Demo.host)
              Runs2.archive_twice "set.zip" Runs2.loaded.1 Runs2.loaded.2
              "NaCl" "data_new") as (Hsep & Hdir & Hfile).
  - vm_compute. reflexivity.
  - vm_compute. reflexivity.
  - split; [exact Hsep|]. split; [exact Hdir|].
    apply Hfile; [discriminate|reflexivity].
Defined.

(** X13 on the run over the challenge set with NaCl only. *)
Lemma counters_of_one_formula :
  length (rows Runs.one_run.1.1) = 2%nat ∧
  ∃ c0 c1 : Z,
    match_true_count_all Runs.one_run.1.1 = [c0; c1] ∧
    (0 ≤ c0 ≤ 1)%Z ∧ (0 ≤ c1 ≤ 1)%Z.
Proof.
  destruct (counters_at_most_number_of_formulas (H := Demo.host)
              Runs.energy_of_NaCl Runs.one_formula ∅
              (Runs.before_loop Runs.complete)
              Runs.one_run.1.1 Runs.one_run.1.2)
    as [Hlen Hcounters].
  - vm_compute. reflexivity.
  - split; [exact Hlen|].
    apply (Hcounters (match_true_count_all Runs.one_run.1.1)).
    do 2 right. by left.
Defined.

(** X14 and X15 on the first row of that run. *)
Lemma first_row_has_the_fields_of_the_header :
  length Runs2.first_row = length header ∧
  yes_or_no (Runs2.first_row !! 1%nat) ∧ yes_or_no (Runs2.first_row !! 3%nat) ∧
  yes_or_no (Runs2.first_row !! 7%nat) ∧ yes_or_no (Runs2.first_row !! 8%nat).
Proof.
  apply (rows_have_the_fields_of_the_header (H := Demo.host)
           Runs.energy_of_NaCl Runs.one_formula ∅
           (Runs.before_loop Runs.complete) Runs2.first_row).
  vm_compute. by left.
Defined.

Lemma first_row_reports_energy_of_NaCl :
  ∃ formula energy,
    Runs2.first_row !! 0%nat = Some formula ∧
    is_Some (Runs.one_formula !! formula) ∧
    Runs.energy_of_NaCl !! formula = Some energy ∧
    Runs2.first_row !! 2%nat = Some (format_f (Host := Demo.host) 5 energy).
Proof.
  destruct (rows_report_energy_and_provenance (H := Demo.host)
              Runs.energy_of_NaCl Runs.one_formula ∅
              (Runs.before_loop Runs.complete) Runs2.first_row)
    as (formula & energy & H0 & Hkey & Henergy & H2 & _).
  - vm_compute. by left.
  - by exists formula, energy.
Defined.

(** X16 on a structure text that the analysis rejects: the structure file
    is written, the report is not. *)
Lemma structure_file_without_report :
  (write_cif_and_envs (H := Demo.host) "out" "NaCl" "garbage" "true"
     distance_cutoff angle_cutoff max_dist_factor Runs2.empty).2
    = Raise ValueError ∧
  Demo.files
    (fs (write_cif_and_envs (H := Demo.host) "out" "NaCl" "garbage" "true"
           distance_cutoff angle_cutoff max_dist_factor Runs2.empty).1.1)
    = [("out/NaCl/true.cif", "garbage")].
Proof.
  destruct (write_cif_and_envs_steps (H := Demo.host)
              "out" "NaCl" "garbage" "true"
              distance_cutoff angle_cutoff max_dist_factor Runs2.empty)
    as (_ & Hanalysis & _).
  destruct (Hanalysis (Demo.Fsys [("out/NaCl/true.cif", "garbage")] [] [])
              ValueError) as [Hresult Hfs].
  - vm_compute. reflexivity.
  - vm_compute. reflexivity.
  - split; [exact Hresult|]. by rewrite Hfs.
Defined.

(** X17 on an empty file system, where the run ends as it reads the energy
    table, and on the file system with all the inputs for NaCl. *)
Lemma run_without_and_with_its_inputs :
  main (H := Demo.host) Runs2.empty
    = (Runs2.empty, [],
       Raise (FileNotFoundError "../out/ChallengeSet-v1.alignn_energies.csv")) ∧
  ∃ energies challenge_set training,
    read_alignn_energies (H := Demo.host) Runs.whole
        "../out/ChallengeSet-v1.alignn_energies.csv" = Ok energies ∧
    read_challenge_set (H := Demo.host) Runs.whole challenge_set_path
      = Ok (challenge_set, training) ∧
    length (rows (main (H := Demo.host) (Runs.before_loop Runs.whole)).1.1)
      = (2 * size challenge_set)%nat.
Proof.
  split.
  - destruct (main_loads_before_it_resets (H := Demo.host) Runs2.empty)
      as (Henergies & _ & _).
    apply Henergies. vm_compute. reflexivity.
  - destruct (main_loads_before_it_resets (H := Demo.host)
                (Runs.before_loop Runs.whole)) as (_ & _ & Hdone).
    destruct (Hdone (main (H := Demo.host) (Runs.before_loop Runs.whole)).1.1
                    (main (H := Demo.host) (Runs.before_loop Runs.whole)).1.2)
      as (energies & challenge_set & training & He & Hc & Hlen & _).
    + vm_compute. reflexivity.
    + exists energies, challenge_set, training.
      split; [exact He|]. split; [exact Hc|exact Hlen].
Defined.

(** X18 on the run with two candidates for NaCl. *)
Lemma props_of_Li2O_are_returned :
  ∃ props, read_props (H := Demo.host) Runs.complete Runs.no_sg "Li2O" = Ok props.
Proof.
  apply (read_props_returns_when_selection_does (H := Demo.host)
           Runs.complete Runs.no_sg
           (Runs.text ["formula,validity_rate,mean_E,min_E";
                       "NaCl,1.0,-3.5,-4.0"; "Li2O,0.0,nan,nan"])
           ["formula"; "validity_rate"; "mean_E"; "min_E"]
           [["NaCl"; "1.0"; "-3.5"; "-4.0"]; ["Li2O"; "0.0"; "nan"; "nan"]]
           [("NaCl", (FFin (10 # 10), FFin (- 35 # 10), FFin (- 40 # 10)));
            ("Li2O", (FFin (0 # 10), FNaN, FNaN))]).
  - vm_compute. reflexivity.
  - vm_compute. reflexivity.
  - repeat constructor; simpl; by eexists.
  - intros g fields Hin Hvalid.
    apply elem_of_cons in Hin as [[= -> ->]|Hin].
    + exists "data_NaCl". vm_compute. reflexivity.
    + apply list_elem_of_singleton in Hin as [= -> ->]. discriminate Hvalid.
Defined.

(** X19 on a summary table with two rows of validity rate 0.0. *)
Lemma props_without_valid_rows :
  ∃ validity_rate min_E mean_E,
    read_props (H := Demo.host) Runs2.summary_twice Runs.no_sg "NaCl"
      = Ok (validity_rate, min_E, mean_E, None) ∧
    ∀ w',
      open_rt (Host := Demo.host) w' (os_path_join Runs.no_sg ["results.csv"])
        = Ok (Runs.text ["formula,validity_rate,mean_E,min_E";
                         "NaCl,0.0,-1.0,-2.0"; "NaCl,0.0,-3.0,-4.0"]) →
      read_props (H := Demo.host) w' Runs.no_sg "NaCl"
        = Ok (validity_rate, min_E, mean_E, None).
Proof.
  apply (read_props_without_valid_rows_reads_no_candidates (H := Demo.host)
           Runs2.summary_twice Runs.no_sg
           (Runs.text ["formula,validity_rate,mean_E,min_E";
                       "NaCl,0.0,-1.0,-2.0"; "NaCl,0.0,-3.0,-4.0"])
           ["formula"; "validity_rate"; "mean_E"; "min_E"]
           [["NaCl"; "0.0"; "-1.0"; "-2.0"]; ["NaCl"; "0.0"; "-3.0"; "-4.0"]]
           [("NaCl", (FFin (0 # 10), FFin (- 10 # 10), FFin (- 20 # 10)));
            ("NaCl", (FFin (0 # 10), FFin (- 30 # 10), FFin (- 40 # 10)))]).
  - vm_compute. reflexivity.
  - vm_compute. reflexivity.
  - repeat constructor; simpl; by eexists.
  - intros g fields Hin.
    repeat (apply elem_of_cons in Hin as [[= -> ->]|Hin]; [reflexivity|]).
    by apply elem_of_nil in Hin.
Defined.
